(** * Hospital-occupancy model: simulation, aggregation, calibration, forecast

    A shallow embedding of [src/causal_model/causal_model.py],
    [src/utils/error_functions.py] and the two data loaders
    [src/data_loader/cases.py] and [src/data_loader/occupancy.py].

    Conventions of the embedding
    - numpy [int] cells and Python integers are [Z]; Python floats are exact
      rationals [Q] (the float results that are not numbers, [inf] and [nan],
      are explicit constructors where the code can produce them);
    - a Python exception is a [Raise] result; an instance method that assigns
      to [self] is a function from the model to a result and the new model,
      the model surviving an exception as the Python object does;
    - a calendar day is its day number, a [Z];
    - the random generator is an interface ([RandomStream]); everything the
      code does with the draws is written out. *)

From Stdlib Require Import String ZArith QArith Qround Qminmax List Bool Lia.
Import ListNotations.

Local Open Scope string_scope.
Local Open Scope list_scope.
Local Open Scope Z_scope.

(** ** Exceptions and results *)

Inductive exn : Type :=
| ValueError
| IndexError
| ZeroDivisionError.

Inductive result (A : Type) : Type :=
| Ok (a : A)
| Raise (e : exn).

Arguments Ok {A} a.
Arguments Raise {A} e.

Definition bind {A B : Type} (r : result A) (k : A -> result B) : result B :=
  match r with
  | Ok a => k a
  | Raise e => Raise e
  end.

Notation "x <- r ;; k" := (bind r (fun x => k))
  (at level 100, r at next level, right associativity).

Definition is_ok {A : Type} (r : result A) : bool :=
  match r with Ok _ => true | Raise _ => false end.

(** ** Python and numpy sequence primitives *)

(** [slice.indices] for a slice bound [k] of a sequence of length [n], step 1:
    a negative bound counts from the end, and every bound is clipped into
    [0, n]. *)
Definition slice_index (n k : Z) : Z :=
  if k <? 0 then Z.max (k + n) 0 else Z.min k n.

(** Add one to the cells whose position [j], [j+1], ... lies in [lo, hi). *)
Fixpoint add1_range (lo hi j : Z) (l : list Z) : list Z :=
  match l with
  | [] => []
  | x :: r =>
      (if (lo <=? j) && (j <? hi) then x + 1 else x) :: add1_range lo hi (j + 1) r
  end.

(** [a[b:e] += 1] on a numpy array: the slice never raises, it is clipped. *)
Definition slice_add1 (a : list Z) (b e : Z) : list Z :=
  let n := Z.of_nat (length a) in
  add1_range (slice_index n b) (slice_index n e) 0 a.

(** [a[b:]] *)
Definition slice_from {A : Type} (a : list A) (b : Z) : list A :=
  skipn (Z.to_nat (slice_index (Z.of_nat (length a)) b)) a.

(** [a[k]] on a numpy array: a negative index counts from the end, an index
    outside [-n, n) raises IndexError. *)
Definition np_index {A : Type} (a : list A) (k : Z) : result A :=
  let n := Z.of_nat (length a) in
  if (k <? - n) || (n <=? k) then Raise IndexError
  else
    match nth_error a (Z.to_nat (if k <? 0 then k + n else k)) with
    | Some x => Ok x
    | None => Raise IndexError
    end.

(** Python [sum] of integers. *)
Definition sum (l : list Z) : Z := fold_left Z.add l 0.

(** [np.around] on one value: nearest integer, a tie going to the even one. *)
Definition around (q : Q) : Z :=
  let f := Qfloor q in
  match Qcompare (q - inject_Z f) (1 # 2) with
  | Lt => f
  | Gt => f + 1
  | Eq => if Z.even f then f else f + 1
  end.

(** ** The random generator *)

(** [np.random.default_rng([worker_id, seed])], [Generator.poisson] and
    [scipy.stats.truncnorm.rvs(a, +inf, loc, scale, size, random_state)].
    A draw consumes the generator and returns the advanced one.  The laws are
    what the two distributions guarantee: a batch has the requested size, a
    Poisson draw is a natural number, and a truncated-normal draw [x]
    satisfies [a <= (x - loc) / scale]. *)
Class RandomStream : Type := {
  rng : Type;
  default_rng : Z -> Z -> rng;
  poisson : rng -> Q -> nat -> list Z * rng;
  truncnorm_rvs : rng -> Q -> Q -> Q -> nat -> list Q * rng;
  poisson_size : forall g lam k, length (fst (poisson g lam k)) = k;
  poisson_nonneg : forall g lam k, Forall (fun d => 0 <= d) (fst (poisson g lam k));
  truncnorm_size : forall g a loc scale k,
      length (fst (truncnorm_rvs g a loc scale k)) = k;
  truncnorm_lower : forall g a loc scale k,
      (0 < scale)%Q ->
      Forall (fun x => (loc + a * scale <= x)%Q) (fst (truncnorm_rvs g a loc scale k))
}.

(** ** Data providers *)

(** One line of the case file: [Time], [Bundesland], [Altersgruppe] and the
    cumulative count [Anzahl]. *)
Record CaseRow : Type := mkCaseRow {
  Time : Z;
  cBundesland : string;
  Altersgruppe : string;
  Anzahl : Z
}.

(** One line of the hospitalization file. *)
Record OccupancyRow : Type := mkOccupancyRow {
  Meldedatum : Z;
  oBundesland : string;
  IntensivBettenBelCovid19 : Z;
  NormalBettenBelCovid19 : Z
}.

Definition CaseData : Type := list CaseRow.
Definition OccupancyData : Type := list OccupancyRow.

(** [Series.min] and [Series.max] of a date column; an empty column has
    neither. *)
Definition column_min (dates : list Z) : option Z :=
  match dates with
  | [] => None
  | t :: ts => Some (fold_left Z.min ts t)
  end.

Definition column_max (dates : list Z) : option Z :=
  match dates with
  | [] => None
  | t :: ts => Some (fold_left Z.max ts t)
  end.

Module Occupancy.

(** [OccupancyData.get_df], the frame as its list of (date, occupancy). *)
Definition get_df (data : OccupancyData) (from_date to_date : Z)
           (state type : string) : result (list (Z * Z)) :=
  data_col <-
    (if String.eqb type "ICU" then Ok IntensivBettenBelCovid19
     else if String.eqb type "normal" then Ok NormalBettenBelCovid19
     else Raise ValueError) ;;
  let data := filter (fun r => String.eqb (oBundesland r) state) data in
  let data := map (fun r => (Meldedatum r, data_col r)) data in
  let data := filter (fun r => (from_date <=? fst r) && (fst r <=? to_date)) data in
  Ok data.

(** [OccupancyData.get_array] *)
Definition get_array (data : OccupancyData) (from_date to_date : Z)
           (state type : string) : result (list Z) :=
  df <- get_df data from_date to_date state type ;;
  Ok (map snd df).

(** [OccupancyData.min_date] and [OccupancyData.max_date] *)
Definition min_date (data : OccupancyData) : option Z :=
  column_min (map Meldedatum data).

Definition max_date (data : OccupancyData) : option Z :=
  column_max (map Meldedatum data).

End Occupancy.

Module Cases.

(** [groupby(['Time']).sum()] on the count column: one line per date, dates
    ascending, the counts of a date added up. *)
Fixpoint group_add (t v : Z) (acc : list (Z * Z)) : list (Z * Z) :=
  match acc with
  | [] => [(t, v)]
  | (t', v') :: r =>
      if t <? t' then (t, v) :: acc
      else if t =? t' then (t', v' + v) :: r
      else (t', v') :: group_add t v r
  end.

Definition groupby_sum (rows : list CaseRow) : list (Z * Z) :=
  fold_left (fun acc r => group_add (Time r) (Anzahl r) acc) rows [].

(** [Series.diff]: the first line has no predecessor and holds NaN
    ([None]). *)
Fixpoint diff_from (prev : Z) (l : list (Z * Z)) : list (Z * option Z) :=
  match l with
  | [] => []
  | (t, v) :: r => (t, Some (v - prev)) :: diff_from v r
  end.

Definition diff (l : list (Z * Z)) : list (Z * option Z) :=
  match l with
  | [] => []
  | (t, v) :: r => (t, None) :: diff_from v r
  end.

(** [astype({"cases": int})]: a NaN cannot be cast and raises (pandas'
    error is a ValueError). *)
Fixpoint astype_int (l : list (Z * option Z)) : result (list (Z * Z)) :=
  match l with
  | [] => Ok []
  | (t, Some v) :: r => r' <- astype_int r ;; Ok ((t, v) :: r')
  | (_, None) :: _ => Raise ValueError
  end.

(** [CaseData.get_df] *)
Definition get_df (data : CaseData) (from_date to_date : Z) (state : string)
           (age_groups : list string) (buffer : Z) : result (list (Z * Z)) :=
  let start_date := from_date - buffer in
  let data := filter (fun r => String.eqb (cBundesland r) state) data in
  let data :=
    filter (fun r => existsb (String.eqb (Altersgruppe r)) age_groups) data in
  let data := diff (groupby_sum data) in
  let data := filter (fun r => (start_date <=? fst r) && (fst r <=? to_date)) data in
  astype_int data.

(** [CaseData.get_array] *)
Definition get_array (data : CaseData) (from_date to_date : Z) (state : string)
           (age_groups : list string) (buffer : Z) : result (list Z) :=
  df <- get_df data from_date to_date state age_groups buffer ;;
  Ok (map snd df).

(** [CaseData.min_date] and [CaseData.max_date] *)
Definition min_date (data : CaseData) : option Z :=
  column_min (map Time data).

Definition max_date (data : CaseData) : option Z :=
  column_max (map Time data).

End Cases.

(** ** Float values of the objective *)

(** The value of a float expression that can divide by zero: a number, the
    positive infinity of [x / 0] with [x > 0], or the NaN of [0 / 0] and of
    the mean of nothing.  numpy signals these with a warning, not with an
    exception. *)
Inductive float : Type :=
| Fin (q : Q)
| Inf
| NaN.

Definition fadd (x y : float) : float :=
  match x, y with
  | NaN, _ | _, NaN => NaN
  | Inf, _ | _, Inf => Inf
  | Fin a, Fin b => Fin (a + b)
  end.

(** [x / k] for a count [k] of cells. *)
Definition fdiv_count (x : float) (k : nat) : float :=
  match k, x with
  | _, NaN => NaN
  | O, Fin q => if Qeq_bool q 0 then NaN else Inf
  | O, Inf => Inf
  | S _, Inf => Inf
  | S _, Fin q => Fin (q / inject_Z (Z.of_nat k))
  end.

Definition fscale (x : float) (c : Q) : float :=
  match x with
  | Fin q => Fin (q * c)
  | Inf => Inf
  | NaN => NaN
  end.

Definition is_finite (x : float) : bool :=
  match x with Fin _ => true | _ => false end.

(** [np.abs(actual - pred) / actual] on one cell. *)
Definition abs_pct (actual pred : Z) : float :=
  if actual =? 0 then (if actual - pred =? 0 then NaN else Inf)
  else Fin (inject_Z (Z.abs (actual - pred)) / inject_Z actual).

(** numpy broadcasting of two one-dimensional operands: equal lengths pair
    up, an operand of length one is repeated, anything else raises. *)
Definition broadcast (actual pred : list Z) : result (list (Z * Z)) :=
  if Nat.eqb (length actual) (length pred) then Ok (combine actual pred)
  else
    match actual, pred with
    | [a], _ => Ok (map (fun p => (a, p)) pred)
    | _, [p] => Ok (map (fun a => (a, p)) actual)
    | _, _ => Raise ValueError
    end.

(** [np.mean] of a float vector. *)
Definition fmean (l : list float) : float :=
  fdiv_count (fold_left fadd l (Fin 0)) (length l).

(** [src/utils/error_functions.py], [mape]. *)
Definition mape (actual pred : list Z) : result float :=
  cells <- broadcast actual pred ;;
  Ok (fscale (fmean (map (fun c => abs_pct (fst c) (snd c)) cells)) 100).

(** ** The model object *)

Record CausalModel : Type := mkCausalModel {
  hospitalization_p : Q;
  poisson_lambda : Q;
  truncnorm_loc : Q;
  truncnorm_scale : Q;
  simulation_seed : Z;
  calibration_seed : Z;
  case_data : CaseData;
  occupancy_data : OccupancyData;
  _state : string;
  _bed_type : string;
  _age_groups : list string;
  _from_date : Z;
  _to_date : Z;
  _buffer : Z;
  occupancy : list Z;
  cases : list Z
}.

(** The [params] property and its setter. *)
Definition params (m : CausalModel) : list Q :=
  [hospitalization_p m; poisson_lambda m; truncnorm_loc m; truncnorm_scale m].

Definition set_params (m : CausalModel) (p lam loc scale : Q) : CausalModel :=
  mkCausalModel p lam loc scale
    (simulation_seed m) (calibration_seed m) (case_data m) (occupancy_data m)
    (_state m) (_bed_type m) (_age_groups m) (_from_date m) (_to_date m)
    (_buffer m) (occupancy m) (cases m).

(** [self.params = value] reads [value[0]] to [value[3]] in turn; a shorter
    sequence raises IndexError after the earlier fields were assigned. *)
Definition params_setter (value : list Q) (m : CausalModel)
  : result unit * CausalModel :=
  match value with
  | [] => (Raise IndexError, m)
  | [p] =>
      (Raise IndexError,
       set_params m p (poisson_lambda m) (truncnorm_loc m) (truncnorm_scale m))
  | [p; lam] =>
      (Raise IndexError, set_params m p lam (truncnorm_loc m) (truncnorm_scale m))
  | [p; lam; loc] =>
      (Raise IndexError, set_params m p lam loc (truncnorm_scale m))
  | p :: lam :: loc :: scale :: _ => (Ok tt, set_params m p lam loc scale)
  end.

Definition set_window (m : CausalModel) (state bed_type : string)
           (age_groups : list string) (from_date to_date buffer : Z) : CausalModel :=
  mkCausalModel (hospitalization_p m) (poisson_lambda m) (truncnorm_loc m)
    (truncnorm_scale m) (simulation_seed m) (calibration_seed m) (case_data m)
    (occupancy_data m) state bed_type age_groups from_date to_date buffer
    (occupancy m) (cases m).

Definition set_occupancy (m : CausalModel) (o : list Z) : CausalModel :=
  mkCausalModel (hospitalization_p m) (poisson_lambda m) (truncnorm_loc m)
    (truncnorm_scale m) (simulation_seed m) (calibration_seed m) (case_data m)
    (occupancy_data m) (_state m) (_bed_type m) (_age_groups m) (_from_date m)
    (_to_date m) (_buffer m) o (cases m).

Definition set_cases (m : CausalModel) (c : list Z) : CausalModel :=
  mkCausalModel (hospitalization_p m) (poisson_lambda m) (truncnorm_loc m)
    (truncnorm_scale m) (simulation_seed m) (calibration_seed m) (case_data m)
    (occupancy_data m) (_state m) (_bed_type m) (_age_groups m) (_from_date m)
    (_to_date m) (_buffer m) (occupancy m) c.

Definition or_else {A : Type} (o : option A) (d : A) : A :=
  match o with Some a => a | None => d end.

(** [CausalModel.update]: the given fields are assigned first, then the two
    cached arrays are fetched again, the occupancy before the cases. *)
Definition update (state bed_type : option string) (age_groups : option (list string))
           (from_date to_date buffer : option Z) (m : CausalModel)
  : result unit * CausalModel :=
  let m1 :=
    set_window m (or_else state (_state m)) (or_else bed_type (_bed_type m))
      (or_else age_groups (_age_groups m)) (or_else from_date (_from_date m))
      (or_else to_date (_to_date m)) (or_else buffer (_buffer m)) in
  match Occupancy.get_array (occupancy_data m1) (_from_date m1) (_to_date m1)
          (_state m1) (_bed_type m1) with
  | Raise e => (Raise e, m1)
  | Ok o =>
      let m2 := set_occupancy m1 o in
      match Cases.get_array (case_data m2) (_from_date m2) (_to_date m2)
              (_state m2) (_age_groups m2) (_buffer m2) with
      | Raise e => (Raise e, m2)
      | Ok c => (Ok tt, set_cases m2 c)
      end
  end.

(** [CausalModel.__init__]: the fields are stored and [update()] fetches the
    two arrays; an exception of [update] leaves no object. *)
Definition init (hospitalization_p poisson_lambda truncnorm_loc truncnorm_scale : Q)
           (state bed_type : string) (age_groups : list string)
           (from_date to_date buffer : Z) (case_data : CaseData)
           (occupancy_data : OccupancyData) (simulation_seed calibration_seed : Z)
  : result CausalModel :=
  match update None None None None None None
          (mkCausalModel hospitalization_p poisson_lambda truncnorm_loc
             truncnorm_scale simulation_seed calibration_seed case_data
             occupancy_data state bed_type age_groups from_date to_date buffer
             [] []) with
  | (Ok _, m) => Ok m
  | (Raise e, _) => Raise e
  end.

(** The state every model object is in after [__init__] and after every
    [update]: the cached arrays are those of the current window. *)
Definition consistent (m : CausalModel) : Prop :=
  Occupancy.get_array (occupancy_data m) (_from_date m) (_to_date m) (_state m)
    (_bed_type m) = Ok (occupancy m)
  /\ Cases.get_array (case_data m) (_from_date m) (_to_date m) (_state m)
       (_age_groups m) (_buffer m) = Ok (cases m).

(** ** Simulation, aggregation and forecast *)

(** The result of [monte_carlo]: the vector of rounded means, or, for zero
    replicas, the zero-dimensional array numpy makes of the mean of nothing
    (a NaN cast to [int], whose value is left to the platform). *)
Inductive ndarray : Type :=
| Vector (l : list Z)
| Scalar (x : Z).

Section Engine.

Context {RS : RandomStream}.

(** What the platform yields for [nan.astype(int)]. *)
Variable nan_as_int : Z.

(** The inner loop of [simulate]: [for i in range(k)], entered at [i]. *)
Fixpoint admit_day (delays stays : list Z) (t pos i : Z) (k : nat)
         (occupancy : list Z) : result (list Z) :=
  match k with
  | O => Ok occupancy
  | S k' =>
      d <- np_index delays (pos + i) ;;
      s <- np_index stays (pos + i) ;;
      let begin_stay := t + d in
      let end_stay := begin_stay + s + 1 in
      admit_day delays stays t pos (i + 1) k' (slice_add1 occupancy begin_stay end_stay)
  end.

(** The outer loop of [simulate]: [for t in range(n)], entered at day [t]
    with the remaining [hospitalizations]. *)
Fixpoint days_loop (delays stays : list Z) (t : Z) (hospitalizations : list Z)
         (pos : Z) (occupancy : list Z) : result (list Z) :=
  match hospitalizations with
  | [] => Ok occupancy
  | h :: rest =>
      occupancy' <- admit_day delays stays t pos 0 (Z.to_nat h) occupancy ;;
      days_loop delays stays (t + 1) rest (pos + h) occupancy'
  end.

(** [int(np.floor(x * self.hospitalization_p))] for every day. *)
Definition hospitalizations_of (m : CausalModel) : list Z :=
  map (fun x => Qfloor (inject_Z x * hospitalization_p m)) (cases m).

(** [CausalModel.simulate].  The occupancy array has one cell per entry of
    [cases].  The division by [std] is Python's and raises on zero; a
    negative batch size or Poisson mean is refused by numpy, a negative
    scale by scipy, each with ValueError. *)
Definition simulate (m : CausalModel) (worker_id : Z) : result (list Z) :=
  let g := default_rng worker_id (simulation_seed m) in
  let n := length (cases m) in
  let occupancy := repeat 0 n in
  let mean := truncnorm_loc m in
  let std := truncnorm_scale m in
  if Qeq_bool std 0 then Raise ZeroDivisionError
  else
    let a := ((0 - mean) / std)%Q in
    let hospitalizations := hospitalizations_of m in
    let size := sum hospitalizations in
    if (size <? 0) || negb (Qle_bool 0 (poisson_lambda m)) then Raise ValueError
    else
      let (delays, g1) := poisson g (poisson_lambda m) (Z.to_nat size) in
      if negb (Qle_bool 0 std) then Raise ValueError
      else
        let (draws, _) := truncnorm_rvs g1 a mean std (Z.to_nat size) in
        let stays := map around draws in
        occupancy' <- days_loop delays stays 0 hospitalizations 0 occupancy ;;
        Ok (slice_from occupancy' (_buffer m)).

(** Every replica in turn, the first exception ending the run. *)
Fixpoint run_replicas (m : CausalModel) (worker_ids : list Z)
  : result (list (list Z)) :=
  match worker_ids with
  | [] => Ok []
  | w :: rest =>
      r <- simulate m w ;;
      rs <- run_replicas m rest ;;
      Ok (r :: rs)
  end.

(** [range(n)] *)
Definition range (n : Z) : list Z := map Z.of_nat (seq 0 (Z.to_nat n)).

(** Cell by cell sum of two rows of one length. *)
Fixpoint add_rows (a b : list Z) : list Z :=
  match a, b with
  | x :: a', y :: b' => (x + y) :: add_rows a' b'
  | _, _ => []
  end.

(** [np.around(np.mean(np.array(rows), axis=0)).astype(int)] *)
Definition around_mean (rows : list (list Z)) : ndarray :=
  match rows with
  | [] => Scalar nan_as_int
  | first :: rest =>
      let total := fold_left add_rows rest first in
      let n := Z.of_nat (length rows) in
      Vector (map (fun s => around (inject_Z s / inject_Z n)) total)
  end.

(** [CausalModel.monte_carlo]: a worker's exception comes back through
    [future.result()], in the order of the worker ids. *)
Definition monte_carlo (m : CausalModel) (n : Z) (method : string)
  : result ndarray :=
  if String.eqb method "parallel" then
    futures <- run_replicas m (range n) ;;
    Ok (around_mean futures)
  else if String.eqb method "sequential" then
    simulations <- run_replicas m (range n) ;;
    Ok (around_mean simulations)
  else Raise ValueError.

(** An operand of [mape]: a zero-dimensional array broadcasts as a vector
    of length one does. *)
Definition operand (a : ndarray) : list Z :=
  match a with
  | Vector l => l
  | Scalar x => [x]
  end.

(** [CausalModel._get_mape] *)
Definition _get_mape (params : list Q) (n : Z) (method : string) (m : CausalModel)
  : result float * CausalModel :=
  match params_setter params m with
  | (Raise e, m1) => (Raise e, m1)
  | (Ok _, m1) =>
      match monte_carlo m1 n method with
      | Raise e => (Raise e, m1)
      | Ok simulation => (mape (occupancy m1) (operand simulation), m1)
      end
  end.

(** [simulation[-days:]]; a zero-dimensional array cannot be sliced. *)
Definition last_days (simulation : ndarray) (days : Z) : result (list Z) :=
  match simulation with
  | Vector l => Ok (slice_from l (- days))
  | Scalar _ => Raise IndexError
  end.

(** [CausalModel.predict] *)
Definition predict (days n : Z) (method : string) (m : CausalModel)
  : result (list Z) * CausalModel :=
  let to_date := _to_date m in
  match update None None None None (Some (to_date + days)) None m with
  | (Raise e, m1) => (Raise e, m1)
  | (Ok _, m1) =>
      match monte_carlo m1 n method with
      | Raise e => (Raise e, m1)
      | Ok simulation =>
          match update None None None None (Some to_date) None m1 with
          | (Raise e, m2) => (Raise e, m2)
          | (Ok _, m2) => (last_days simulation days, m2)
          end
      end
  end.

End Engine.

(** ** Calibration *)

(** The random choices of the optimizer, all derived from one seed: the
    quasi-random points of the unit cube that start the population, the two
    members picked for a mutation, the mutation factor of a generation and
    the coordinates taken from the mutant in a crossover. *)
Class OptimizerStream : Type := {
  unit_point : Z -> nat -> nat -> Q;
  pick : Z -> nat -> nat -> nat -> nat;
  dither : Z -> nat -> Q;
  crossover : Z -> nat -> nat -> nat -> bool;
  unit_point_range : forall seed i j,
      (0 <= unit_point seed i j)%Q /\ (unit_point seed i j <= 1)%Q
}.

Definition float_ltb (x y : float) : bool :=
  match x, y with
  | Fin a, Fin b => negb (Qle_bool b a)
  | Fin _, Inf => true
  | _, _ => false
  end.

Definition within_boundsb (x : list Q) (bounds : list (Q * Q)) : bool :=
  Nat.eqb (length x) (length bounds)
  && forallb (fun vb => Qle_bool (fst (snd vb)) (fst vb) && Qle_bool (fst vb) (snd (snd vb)))
       (combine x bounds).

(** What a calibration returns: the best vector, its objective value and the
    number of generations. *)
Record OptimizeResult : Type := mkOptimizeResult {
  x : list Q;
  fun_ : float;
  nit : nat
}.

Section Optimizer.

Context {OS : OptimizerStream}.

(** Number of population members, and the convergence test on the
    objective values of a population. *)
Variable popsize : nat.
Variable converged : list float -> bool.

Variable func : list Q -> result float.
Variable bounds : list (Q * Q).
Variable seed : Z.

Definition clamp (b : Q * Q) (v : Q) : Q := Qmax (fst b) (Qmin (snd b) v).

Definition scale_point (b : Q * Q) (u : Q) : Q := (fst b + u * (snd b - fst b))%Q.

Definition coordinates : list (nat * (Q * Q)) :=
  combine (seq 0 (length bounds)) bounds.

Definition init_member (i : nat) : list Q :=
  map (fun jb => scale_point (snd jb) (unit_point seed i (fst jb))) coordinates.

Definition init_population (x0 : option (list Q)) : list (list Q) :=
  match x0 with
  | None => map init_member (seq 0 popsize)
  | Some v => v :: map init_member (seq 1 (popsize - 1))
  end.

Fixpoint evaluate (population : list (list Q)) : result (list float) :=
  match population with
  | [] => Ok []
  | v :: rest =>
      e <- func v ;;
      es <- evaluate rest ;;
      Ok (e :: es)
  end.

(** The first member with the least objective value. *)
Fixpoint best_of (v : list Q) (e : float) (rest : list (list Q * float))
  : list Q * float :=
  match rest with
  | [] => (v, e)
  | (v', e') :: rest' =>
      if float_ltb e' e then best_of v' e' rest' else best_of v e rest'
  end.

Definition coord (v : list Q) (j : nat) : Q := nth j v 0%Q.

(** Member [i] of generation [gen]: the rand-to-best mutant, crossed with
    the member coordinate by coordinate, and clamped into the box. *)
Definition trial (gen : nat) (population : list (list Q)) (best : list Q) (i : nat)
  : list Q :=
  let v := nth i population [] in
  let r1 := nth (pick seed gen i 0 mod popsize) population [] in
  let r2 := nth (pick seed gen i 1 mod popsize) population [] in
  let F := dither seed gen in
  map (fun jb =>
         let j := fst jb in
         let mutant :=
           (coord v j + F * (coord best j - coord v j)
            + F * (coord r1 j - coord r2 j))%Q in
         clamp (snd jb) (if crossover seed gen i j then mutant else coord v j))
      coordinates.

(** The update of a whole generation at once: a trial replaces its member
    when its objective value is smaller. *)
Fixpoint select (old new : list (list Q * float)) : list (list Q * float) :=
  match old, new with
  | (v, e) :: old', (v', e') :: new' =>
      (if float_ltb e' e then (v', e') else (v, e)) :: select old' new'
  | _, _ => []
  end.

Fixpoint evolve (fuel gen : nat) (scored : list (list Q * float))
  : result (list (list Q * float) * nat) :=
  match fuel with
  | O => Ok (scored, gen)
  | S fuel' =>
      if converged (map snd scored) then Ok (scored, gen)
      else
        match scored with
        | [] => Ok (scored, gen)
        | (v, e) :: rest =>
            let population := map fst scored in
            let best := fst (best_of v e rest) in
            let trials := map (trial gen population best) (seq 0 (length scored)) in
            energies <- evaluate trials ;;
            evolve fuel' (S gen) (select scored (combine trials energies))
        end
  end.

(** Modelled from the spec: [scipy.optimize.differential_evolution], the
    optimizer that [calibrate] calls and whose code is not part of the
    sources; section 4.4 and the design notes of the specification
    describe it: a quasi-random first population inside the bounds, one
    member optionally seeded with the current parameters, rand-to-best
    mutation with binomial crossover, bound clamping, one update per
    generation, at most [maxiter] generations.  A seed vector outside the
    box is refused with ValueError, as the library does; an empty population
    has no best member.  The local polishing the library runs on the best
    member by default is not part of that description and is left out. *)
Definition differential_evolution (maxiter : nat) (x0 : option (list Q))
  : result OptimizeResult :=
  _ <- match x0 with
       | Some v => if within_boundsb v bounds then Ok tt else Raise ValueError
       | None => Ok tt
       end ;;
  let population := init_population x0 in
  energies <- evaluate population ;;
  final <- evolve maxiter 0 (combine population energies) ;;
  match fst final with
  | [] => Raise ValueError
  | (v, e) :: rest =>
      let b := best_of v e rest in
      Ok (mkOptimizeResult (fst b) (snd b) (snd final))
  end.

End Optimizer.

Section Calibrator.

Context {RS : RandomStream} {OS : OptimizerStream}.

Variable nan_as_int : Z.
Variable popsize : nat.
Variable converged : list float -> bool.

(** [CausalModel.calibrate].  The optimizer evaluates [_get_mape] in its
    worker processes, each on its own copy of the model; [disp] only
    prints.  The last statement writes the best vector into the model. *)
Definition calibrate (n : Z) (bounds : list (Q * Q)) (maxiter : nat)
           (use_x0 disp : bool) (m : CausalModel)
  : result OptimizeResult * CausalModel :=
  let x0 := if use_x0 then Some (params m) else None in
  match differential_evolution popsize converged
          (fun v => fst (_get_mape nan_as_int v n "sequential" m))
          bounds (calibration_seed m) maxiter x0 with
  | Raise e => (Raise e, m)
  | Ok result =>
      match params_setter (x result) m with
      | (Raise e, m') => (Raise e, m')
      | (Ok _, m') => (Ok result, m')
      end
  end.

End Calibrator.

(** ** A generator with point-mass distributions

    Every Poisson draw is the integer part of the mean plus the worker id,
    every truncated-normal draw is the location (or the lower truncation
    point when that is larger).  It satisfies the laws of [RandomStream] and
    makes the model computable on concrete inputs. *)
Module PointMass.

Lemma pm_poisson_size (g : nat) (lam : Q) (k : nat) :
  length (fst (repeat (Z.max 0 (Qfloor lam) + Z.of_nat g) k, g)) = k.
Proof. apply repeat_length. Qed.

Lemma pm_poisson_nonneg (g : nat) (lam : Q) (k : nat) :
  Forall (fun d => 0 <= d) (fst (repeat (Z.max 0 (Qfloor lam) + Z.of_nat g) k, g)).
Proof.
  simpl. apply Forall_forall. intros d Hd.
  apply repeat_spec in Hd. subst d. lia.
Qed.

Lemma pm_truncnorm_size (g : nat) (a loc scale : Q) (k : nat) :
  length (fst (repeat (Qmax loc (loc + a * scale)) k, g)) = k.
Proof. apply repeat_length. Qed.

Lemma pm_truncnorm_lower (g : nat) (a loc scale : Q) (k : nat) :
  (0 < scale)%Q ->
  Forall (fun x => (loc + a * scale <= x)%Q)
         (fst (repeat (Qmax loc (loc + a * scale)) k, g)).
Proof.
  intros _. simpl. apply Forall_forall. intros x Hx.
  apply repeat_spec in Hx. subst x. apply Q.le_max_r.
Qed.

Definition stream : RandomStream :=
  Build_RandomStream nat
    (fun worker_id _ => Z.abs_nat worker_id)
    (fun g lam k => (repeat (Z.max 0 (Qfloor lam) + Z.of_nat g) k, g))
    (fun g a loc scale k => (repeat (Qmax loc (loc + a * scale)) k, g))
    pm_poisson_size pm_poisson_nonneg pm_truncnorm_size pm_truncnorm_lower.

(** A provider with data for the days 1 to 6 of one region. *)
Definition case_file : CaseData :=
  [ mkCaseRow 1 "Wien" "<5" 0;
    mkCaseRow 2 "Wien" "<5" 10; mkCaseRow 3 "Wien" "<5" 10;
    mkCaseRow 4 "Wien" "<5" 13; mkCaseRow 5 "Wien" "<5" 13;
    mkCaseRow 6 "Wien" "<5" 14 ].

Definition occupancy_file : OccupancyData :=
  [ mkOccupancyRow 1 "Wien" 0 0; mkOccupancyRow 2 "Wien" 1 10;
    mkOccupancyRow 3 "Wien" 0 10; mkOccupancyRow 4 "Wien" 2 10;
    mkOccupancyRow 5 "Wien" 2 10; mkOccupancyRow 6 "Wien" 1 3 ].

(** Optimizer choices: the starting points alternate between two points of
    the unit cube, the mutation factor is one half, every coordinate is
    taken from the mutant. *)
Lemma pm_unit_point_range (seed : Z) (i j : nat) :
  (0 <= (if Nat.even (i + j) then 1 # 4 else 3 # 4))%Q
  /\ ((if Nat.even (i + j) then 1 # 4 else 3 # 4) <= 1)%Q.
Proof. destruct (Nat.even (i + j)); split; discriminate. Qed.

Definition optimizer : OptimizerStream :=
  Build_OptimizerStream
    (fun _ i j => if Nat.even (i + j) then 1 # 4 else 3 # 4)
    (fun _ gen i slot => (gen + i + slot + 1)%nat)
    (fun _ _ => 1 # 2)
    (fun _ _ _ _ => true)
    pm_unit_point_range.

(** The model objects [__init__] builds on the window of the days 2 to 4, for
    the normal beds and for the intensive-care beds. *)
Definition window_model : CausalModel :=
  mkCausalModel 1 0 3 1 0 0 case_file occupancy_file
    "Wien" "normal" ["<5"] 2 4 0 [10; 10; 10] [10; 0; 3].

Definition icu_model : CausalModel :=
  mkCausalModel 1 0 3 1 0 0 case_file occupancy_file
    "Wien" "ICU" ["<5"] 2 4 0 [1; 0; 2] [10; 0; 3].

(** A model object whose cached arrays are given directly. *)
Definition model (p lam loc scale : Q) (buffer : Z) (occupancy cases : list Z)
  : CausalModel :=
  mkCausalModel p lam loc scale 0 0 case_file occupancy_file
    "Wien" "normal" ["<5"] 2 4 buffer occupancy cases.

End PointMass.

(** ** Reference definitions for the simulation *)

(** An admission: its day [t], its delay [d] and its stay [s]. *)
Definition admission : Type := (Z * (Z * Z))%type.

(** The day of every admission in the order of the loops: day [t] once for
    each of its [hospitalizations[t]] admissions. *)
Fixpoint admission_days (t : Z) (hospitalizations : list Z) : list Z :=
  match hospitalizations with
  | [] => []
  | h :: rest => repeat t (Z.to_nat h) ++ admission_days (t + 1) rest
  end.

(** Admission number [k] takes draw [k] of each batch. *)
Definition admissions_of (hospitalizations delays stays : list Z) : list admission :=
  combine (admission_days 0 hospitalizations) (combine delays stays).

Definition begin_stay (a : admission) : Z := fst a + fst (snd a).
Definition end_stay (a : admission) : Z := begin_stay a + snd (snd a) + 1.






(** Bed-days of an admission that fall on the days [0 .. n-1]. *)
Definition bed_days_within (n : Z) (a : admission) : Z :=
  Z.max 0 (Z.min (end_stay a) n - Z.min (begin_stay a) n).

(** [f j x] on every cell [x], [j] being the position of the cell. *)
Fixpoint imap (f : Z -> Z -> Z) (j : Z) (l : list Z) : list Z :=
  match l with
  | [] => []
  | x :: r => f j x :: imap f (j + 1) r
  end.


Section SimulationDraws.

Context {RS : RandomStream}.

(** The two batches as [simulate] draws them: the delays first, the stays
    from the generator the delays left, both of the size of the total
    number of admissions. *)
Definition batch_size (m : CausalModel) : nat :=
  Z.to_nat (sum (hospitalizations_of m)).

Definition batch_delays (m : CausalModel) (worker_id : Z) : list Z :=
  fst (poisson (default_rng worker_id (simulation_seed m)) (poisson_lambda m)
         (batch_size m)).

Definition batch_stays (m : CausalModel) (worker_id : Z) : list Z :=
  let g1 :=
    snd (poisson (default_rng worker_id (simulation_seed m)) (poisson_lambda m)
           (batch_size m)) in
  map around
    (fst (truncnorm_rvs g1 ((0 - truncnorm_loc m) / truncnorm_scale m)%Q
            (truncnorm_loc m) (truncnorm_scale m) (batch_size m))).

Definition admissions (m : CausalModel) (worker_id : Z) : list admission :=
  admissions_of (hospitalizations_of m) (batch_delays m worker_id)
    (batch_stays m worker_id).


End SimulationDraws.



(** The column sums that [np.mean] divides by the number of rows. *)
Definition column_totals (rows : list (list Z)) : list Z :=
  match rows with
  | [] => []
  | first :: rest => fold_left add_rows rest first
  end.


(** A vector inside the box, and a box whose lower bounds do not exceed the
    upper bounds. *)
Definition within_bounds (v : list Q) (bounds : list (Q * Q)) : Prop :=
  Forall2 (fun c b => (fst b <= c)%Q /\ (c <= snd b)%Q) v bounds.

Definition well_formed_bounds (bounds : list (Q * Q)) : Prop :=
  Forall (fun b => (fst b <= snd b)%Q) bounds.

(** Every member of a scored population lies inside the box. *)
Definition all_within (bounds : list (Q * Q)) (scored : list (list Q * float)) : Prop :=
  Forall (fun s => within_bounds (fst s) bounds) scored.

(** One case on a window of one day: the admission stays three days. *)
Definition short_window : CausalModel := PointMass.model 1 0 3 (1 # 1000) 0 [] [1].

(** The scenario of the specification: ten admissions on day 0, no delay, a
    stay of three days. *)
Definition scenario : CausalModel :=
  PointMass.model 1 0 3 (1 # 1000) 0 [] [10; 0; 0; 0; 0; 0; 0].

(** One case, replicas that differ in the delay only. *)
Definition one_case : CausalModel := PointMass.model 1 0 3 1 0 [] [1].

(** ** Further operations of the sources *)

(** [Series.unique]: the values in the order of their first appearance. *)
Fixpoint unique (l : list string) : list string :=
  match l with
  | [] => []
  | v :: r => v :: filter (fun u => negb (String.eqb v u)) (unique r)
  end.

Module OccupancyQueries.

(** [OccupancyData.states] *)
Definition states (data : OccupancyData) : list string :=
  unique (map oBundesland data).

End OccupancyQueries.

Module CaseQueries.

(** [CaseData.states] and [CaseData.age_groups] *)
Definition states (data : CaseData) : list string :=
  unique (map cBundesland data).

Definition age_groups (data : CaseData) : list string :=
  unique (map Altersgruppe data).

End CaseQueries.

(** [np.diff] of a vector. *)
Fixpoint np_diff_from (prev : Z) (l : list Z) : list Z :=
  match l with
  | [] => []
  | v :: r => (v - prev) :: np_diff_from v r
  end.

Definition np_diff (l : list Z) : list Z :=
  match l with
  | [] => []
  | v :: r => np_diff_from v r
  end.

(** [src/utils/error_functions.py], [mae]. *)
Definition mae (actual pred : list Z) : result float :=
  cells <- broadcast actual pred ;;
  Ok (fmean (map (fun c => Fin (inject_Z (Z.abs (fst c - snd c)))) cells)).

(** The quotient of a sum of absolute values by an integer, as numpy
    divides: by zero it is NaN for a zero sum and the infinity otherwise. *)
Definition fdiv_int (s k : Z) : float :=
  if k =? 0 then (if s =? 0 then NaN else Inf)
  else Fin (inject_Z s / inject_Z k).

(** [x / y] for a numerator that is a mean of absolute values (a number
    that is not negative, or the NaN of the mean of nothing). *)
Definition fdiv_nonneg (x y : float) : float :=
  match x, y with
  | NaN, _ | _, NaN => NaN
  | Inf, Inf => NaN
  | Inf, Fin _ => Inf
  | Fin _, Inf => Fin 0
  | Fin a, Fin b =>
      if Qeq_bool b 0 then (if Qeq_bool a 0 then NaN else Inf) else Fin (a / b)
  end.

(** [src/utils/error_functions.py], [mase]. *)
Definition mase (actual pred : list Z) : result float :=
  cells <- broadcast actual pred ;;
  let numerator := fmean (map (fun c => Fin (inject_Z (Z.abs (fst c - snd c)))) cells) in
  let denominator :=
    fdiv_int (sum (map Z.abs (np_diff actual))) (Z.of_nat (length actual) - 1) in
  Ok (fdiv_nonneg numerator denominator).

(** [np.abs(actual - pred)] on one cell. *)
Definition abs_error (c : Z * Z) : float := Fin (inject_Z (Z.abs (fst c - snd c))).

(** Dates in strictly ascending order. *)
Fixpoint ascending {A : Type} (l : list (Z * A)) : Prop :=
  match l with
  | [] => True
  | (t, _) :: r => Forall (fun e => t < fst e) r /\ ascending r
  end.


(** The lines of the case file that [get_df] groups: those of the region and
    of the age groups. *)
Definition selection (data : CaseData) (state : string) (age_groups : list string)
  : list CaseRow :=
  filter (fun r => existsb (String.eqb (Altersgruppe r)) age_groups)
         (filter (fun r => String.eqb (cBundesland r) state) data).

(** ** The benchmark loop

    [src/utils/benchmark.py]: the two dictionaries that [benchmark] fills,
    one date after the other; writing them to the file is left out.  A date
    is its day number, a message [str(e)] is the exception. *)

(** A Python [dict] with integer keys: an assignment to a key that is
    present replaces its value in place, a new key goes to the end. *)
Fixpoint dict_set {V : Type} (k : Z) (v : V) (d : list (Z * V)) : list (Z * V) :=
  match d with
  | [] => [(k, v)]
  | (k', v') :: r => if k =? k' then (k, v) :: r else (k', v') :: dict_set k v r
  end.

Fixpoint dict_get {V : Type} (k : Z) (d : list (Z * V)) : option V :=
  match d with
  | [] => None
  | (k', v') :: r => if k =? k' then Some v' else dict_get k r
  end.

(** The entry of a date in [successful]: the keys assigned so far. *)
Record Entry (C : Type) : Type := mkEntry {
  e_actual : option (list Z);
  e_prediction : option (list Z);
  e_diff : option (list Z);
  e_mase : option float;
  e_mape : option float;
  e_mae : option float;
  e_calibration_stats : option C
}.

Arguments mkEntry {C}.
Arguments e_actual {C}.
Arguments e_prediction {C}.
Arguments e_diff {C}.
Arguments e_mase {C}.
Arguments e_mape {C}.
Arguments e_mae {C}.
Arguments e_calibration_stats {C}.

(** [reference - prediction] on two numpy vectors. *)
Definition subtract (reference prediction : list Z) : result (list Z) :=
  cells <- broadcast reference prediction ;;
  Ok (map (fun c => fst c - snd c) cells).

Section Benchmark.

Variable C : Type.
Variable forecast : Z -> Z -> result (list Z * C).
Variable forecast_days : Z.
Variable state bed_type : string.
Variable occupancy_data : OccupancyData.

(** The body of the [try]: its outcome and [successful] as the body left
    it. *)
Definition benchmark_try (date : Z) (successful : list (Z * Entry C))
  : result unit * list (Z * Entry C) :=
  match forecast date forecast_days with
  | Raise e => (Raise e, successful)
  | Ok (prediction, calibration) =>
      let from_date := date + 1 in
      let to_date := from_date + forecast_days - 1 in
      match Occupancy.get_array occupancy_data from_date to_date state bed_type with
      | Raise e => (Raise e, successful)
      | Ok reference =>
          let e0 := mkEntry None None None None None None None in
          let e1 := mkEntry (Some reference) None None None None None None in
          let e2 := mkEntry (Some reference) (Some prediction) None None None None None in
          let s2 := dict_set date e2 (dict_set date e1 (dict_set date e0 successful)) in
          match subtract reference prediction with
          | Raise e => (Raise e, s2)
          | Ok d =>
              let e3 :=
                mkEntry (Some reference) (Some prediction) (Some d) None None None None in
              let s3 := dict_set date e3 s2 in
              match mase reference prediction with
              | Raise e => (Raise e, s3)
              | Ok v1 =>
                  let e4 :=
                    mkEntry (Some reference) (Some prediction) (Some d) (Some v1)
                      None None None in
                  let s4 := dict_set date e4 s3 in
                  match mape reference prediction with
                  | Raise e => (Raise e, s4)
                  | Ok v2 =>
                      let e5 :=
                        mkEntry (Some reference) (Some prediction) (Some d) (Some v1)
                          (Some v2) None None in
                      let s5 := dict_set date e5 s4 in
                      match mae reference prediction with
                      | Raise e => (Raise e, s5)
                      | Ok v3 =>
                          let e7 :=
                            mkEntry (Some reference) (Some prediction) (Some d)
                              (Some v1) (Some v2) (Some v3) (Some calibration) in
                          let e6 :=
                            mkEntry (Some reference) (Some prediction) (Some d)
                              (Some v1) (Some v2) (Some v3) None in
                          let s7 := dict_set date e7 (dict_set date e6 s5) in
                          match mase reference prediction with
                          | Raise e => (Raise e, s7)
                          | Ok _ => (Ok tt, s7)
                          end
                      end
                  end
              end
          end
      end
  end.

(** One turn of the loop: the [except] clause records the exception. *)
Definition benchmark_date (st : list (Z * Entry C) * list (Z * exn)) (date : Z)
  : list (Z * Entry C) * list (Z * exn) :=
  match benchmark_try date (fst st) with
  | (Ok _, successful) => (successful, snd st)
  | (Raise e, successful) => (successful, dict_set date e (snd st))
  end.

(** [benchmark], up to the dictionaries [successful] and [failed]. *)
Definition benchmark (dates : list Z) : list (Z * Entry C) * list (Z * exn) :=
  fold_left benchmark_date dates ([], []).

End Benchmark.

(** ** Sample inputs for the further operations *)

Module Sample.

(** A case file with two regions and two age groups, its lines in no
    order.  The cumulative counts of Wien, both age groups together, are
    1, 7, 12 and 15 on the days 1 to 4. *)
Definition case_rows : CaseData :=
  [ mkCaseRow 3 "Wien" "5-14" 8; mkCaseRow 1 "Wien" "<5" 0;
    mkCaseRow 2 "Tirol" "<5" 5; mkCaseRow 4 "Wien" "<5" 7;
    mkCaseRow 2 "Wien" "<5" 4; mkCaseRow 1 "Wien" "5-14" 1;
    mkCaseRow 4 "Wien" "5-14" 8; mkCaseRow 1 "Tirol" "<5" 5;
    mkCaseRow 2 "Wien" "5-14" 3; mkCaseRow 3 "Wien" "<5" 4 ].


Definition from_the_end : CausalModel :=
  PointMass.model 1 0 3 (1 # 1000) (-2) [] [10; 0; 0; 0; 0; 0; 0].

(** Forecasts for a benchmark over two days: too long on day 2, right on
    day 3, raising on any other day. *)
Definition forecast (date days : Z) : result (list Z * unit) :=
  if date =? 2 then Ok ([1; 2; 3], tt)
  else if date =? 3 then Ok ([7; 7], tt)
  else Raise ZeroDivisionError.

End Sample.

(** * Properties *)

(** ** Results *)

Lemma bind_ok {A B : Type} (r : result A) (k : A -> result B) (b : B) :
  bind r k = Ok b -> exists a, r = Ok a /\ k a = Ok b.
Proof.
  destruct r as [a|e]; simpl; intros H; [exists a; auto | discriminate].
Qed.

(** ** Slices and positions *)

Lemma add1_range_imap (lo hi j : Z) (l : list Z) :
  add1_range lo hi j l
  = imap (fun k x => if (lo <=? k) && (k <? hi) then x + 1 else x) j l.
Proof.
  revert j. induction l as [|x r IH]; intros j; simpl; [reflexivity|].
  now rewrite IH.
Qed.

Lemma imap_length (f : Z -> Z -> Z) (j : Z) (l : list Z) :
  length (imap f j l) = length l.
Proof.
  revert j. induction l as [|x r IH]; intros j; simpl; [reflexivity|].
  now rewrite IH.
Qed.





Lemma slice_add1_length (occupancy : list Z) (b e : Z) :
  length (slice_add1 occupancy b e) = length occupancy.
Proof.
  unfold slice_add1. rewrite add1_range_imap. apply imap_length.
Qed.




(** ** The loops of [simulate] *)

Lemma sum_acc (l : list Z) (c : Z) : fold_left Z.add l c = c + sum l.
Proof.
  unfold sum. revert c. induction l as [|x r IH]; intros c; simpl; [lia|].
  rewrite (IH (c + x)), (IH x). lia.
Qed.

Lemma sum_cons (x : Z) (l : list Z) : sum (x :: l) = x + sum l.
Proof. unfold sum at 1. simpl. apply sum_acc. Qed.












(** ** [simulate] against the reference occupancy *)



Section SimulateSpec.

Context {RS : RandomStream}.




End SimulateSpec.

(** ** Rounding of the mean *)

(** [np.around] of the quotient of two integers, in integer arithmetic. *)
Lemma around_div (s : Z) (p : positive) :
  around (inject_Z s / inject_Z (Zpos p))
  = match 2 * (s mod Zpos p) ?= Zpos p with
    | Lt => s / Zpos p
    | Gt => s / Zpos p + 1
    | Eq => if Z.even (s / Zpos p) then s / Zpos p else s / Zpos p + 1
    end.
Proof.
  unfold around.
  assert (Hf : Qfloor (inject_Z s / inject_Z (Zpos p)) = s / Zpos p).
  { unfold Qfloor, Qdiv, Qmult, Qinv, inject_Z. simpl.
    rewrite Z.mul_1_r. reflexivity. }
  rewrite Hf.
  assert (Hc : Qcompare (inject_Z s / inject_Z (Zpos p) - inject_Z (s / Zpos p)) (1 # 2)
               = (2 * (s mod Zpos p) ?= Zpos p)).
  { rewrite Z.mod_eq by discriminate.
    set (r := 2 * (s - Z.pos p * (s / Z.pos p))).
    unfold Qcompare, Qminus, Qplus, Qopp, Qdiv, Qmult, Qinv, inject_Z.
    cbn [Qnum Qden]. rewrite ?Pos.mul_1_r, ?Pos.mul_1_l. subst r.
    f_equal; ring. }
  rewrite Hc. reflexivity.
Qed.

Lemma around_whole (s : Z) : around (inject_Z s / inject_Z 1) = s.
Proof.
  rewrite (around_div s 1). rewrite Z.mod_1_r, Z.div_1_r. reflexivity.
Qed.

Lemma around_tie (s n k : Z) :
  0 < n -> 2 * s = (2 * k + 1) * n ->
  around (inject_Z s / inject_Z n) = if Z.even k then k else k + 1.
Proof.
  intros Hn H. destruct n as [|p|p]; try lia.
  rewrite around_div.
  assert (Hdm : s = Zpos p * (s / Zpos p) + s mod Zpos p)
    by (apply Z.div_mod; discriminate).
  assert (Hb : 0 <= s mod Zpos p < Zpos p)
    by (apply Z.mod_pos_bound; reflexivity).
  assert (Hq : s / Zpos p = k) by nia.
  assert (Hr : 2 * (s mod Zpos p) = Zpos p) by nia.
  rewrite Hr, Z.compare_refl, Hq. reflexivity.
Qed.

Section Aggregator.

Context {RS : RandomStream}.
Variable nan_as_int : Z.

Lemma run_replicas_length (m : CausalModel) (ws : list Z) (sims : list (list Z)) :
  run_replicas m ws = Ok sims -> length sims = length ws.
Proof.
  revert sims. induction ws as [|w ws IH]; intros sims H; simpl in H.
  - now inversion H.
  - destruct (simulate m w) as [r|e]; [|discriminate]. simpl in H.
    destruct (run_replicas m ws) as [rs|e]; [|discriminate]. simpl in H.
    inversion H; subst. simpl. now rewrite (IH rs).
Qed.

Lemma range_length (n : Z) : length (range n) = Z.to_nat n.
Proof. unfold range. now rewrite length_map, length_seq. Qed.

(** Both branches of [monte_carlo] compute the same value. *)
Lemma monte_carlo_modes (m : CausalModel) (n : Z) :
  monte_carlo nan_as_int m n "parallel" = monte_carlo nan_as_int m n "sequential".
Proof. reflexivity. Qed.

(** C2. A Monte Carlo run of one replica, in the parallel and in the
    sequential mode, returns exactly what [simulate(0)] returns: the same
    cells when it succeeds (the mean of one row is the row, and rounding a
    whole number changes nothing), the same exception when it fails. *)
Theorem monte_carlo_one_is_simulate (m : CausalModel) :
  monte_carlo nan_as_int m 1 "parallel" = (r <- simulate m 0 ;; Ok (Vector r))
  /\ monte_carlo nan_as_int m 1 "sequential" = (r <- simulate m 0 ;; Ok (Vector r)).
Proof.
  assert (H : monte_carlo nan_as_int m 1 "sequential"
              = (r <- simulate m 0 ;; Ok (Vector r))).
  { unfold monte_carlo. cbn [String.eqb Ascii.eqb Bool.eqb].
    change (range 1) with [0]. cbn [run_replicas].
    destruct (simulate m 0) as [r|e]; [|reflexivity].
    cbn [bind around_mean fold_left length]. f_equal. f_equal.
    rewrite <- (map_id r) at 2. apply map_ext. intros s.
    apply around_whole. }
  split; [rewrite monte_carlo_modes|]; exact H.
Qed.

(** C9. When the mean of a column of replica results lies exactly halfway
    between two integers [k] and [k + 1], [monte_carlo] returns the even one
    of the two in that cell, in the parallel and in the sequential mode
    alike. *)
Theorem monte_carlo_ties_to_even (m : CausalModel) (n : Z) (sims : list (list Z))
        (j : nat) (k : Z) (method : string) :
  run_replicas m (range n) = Ok sims ->
  0 < n ->
  (j < length (column_totals sims))%nat ->
  2 * nth j (column_totals sims) 0 = (2 * k + 1) * n ->
  method = "parallel" \/ method = "sequential" ->
  exists out,
    monte_carlo nan_as_int m n method = Ok (Vector out)
    /\ nth j out 0 = if Z.even k then k else k + 1.
Proof.
  intros Hrun Hn Hj Htie Hmethod.
  assert (Hlen : Z.of_nat (length sims) = n).
  { rewrite (run_replicas_length _ _ _ Hrun), range_length. lia. }
  assert (Hseq : monte_carlo nan_as_int m n "sequential"
                 = Ok (around_mean nan_as_int sims)).
  { unfold monte_carlo. cbn [String.eqb Ascii.eqb Bool.eqb]. now rewrite Hrun. }
  assert (Hmc : monte_carlo nan_as_int m n method
                = Ok (around_mean nan_as_int sims)).
  { destruct Hmethod; subst method; [rewrite monte_carlo_modes|]; exact Hseq. }
  destruct sims as [|first rest]; [simpl in Hlen; lia|].
  eexists. split; [exact Hmc|].
  unfold column_totals in Hj, Htie.
  set (f := fun s => around (inject_Z s / inject_Z (Z.of_nat (length (first :: rest))))).
  rewrite (nth_indep (map f (fold_left add_rows rest first)) 0 (f 0))
    by (rewrite length_map; exact Hj).
  rewrite map_nth. unfold f. rewrite Hlen. now apply around_tie.
Qed.

End Aggregator.

(** ** Bed-days inside the window *)








Section SimulateClaims.

Context {RS : RandomStream}.



End SimulateClaims.

(** ** The data providers *)

Lemma fold_min_le (ts : list Z) (t : Z) :
  fold_left Z.min ts t <= t /\ forall d, In d ts -> fold_left Z.min ts t <= d.
Proof.
  revert t. induction ts as [|u ts IH]; intros t; simpl.
  - split; [lia | intros d []].
  - destruct (IH (Z.min t u)) as [H1 H2]. split; [lia|].
    intros d [<- | Hd]; [lia | now apply H2].
Qed.

Lemma fold_max_ge (ts : list Z) (t : Z) :
  t <= fold_left Z.max ts t /\ forall d, In d ts -> d <= fold_left Z.max ts t.
Proof.
  revert t. induction ts as [|u ts IH]; intros t; simpl.
  - split; [lia | intros d []].
  - destruct (IH (Z.max t u)) as [H1 H2]. split; [lia|].
    intros d [<- | Hd]; [lia | now apply H2].
Qed.

Lemma column_min_le (dates : list Z) (lo d : Z) :
  column_min dates = Some lo -> In d dates -> lo <= d.
Proof.
  destruct dates as [|t ts]; [discriminate|]. simpl. intros [= <-] [<- | Hd].
  - apply (proj1 (fold_min_le ts t)).
  - now apply (proj2 (fold_min_le ts t)).
Qed.

Lemma column_max_ge (dates : list Z) (hi d : Z) :
  column_max dates = Some hi -> In d dates -> d <= hi.
Proof.
  destruct dates as [|t ts]; [discriminate|]. simpl. intros [= <-] [<- | Hd].
  - apply (proj1 (fold_max_ge ts t)).
  - now apply (proj2 (fold_max_ge ts t)).
Qed.

(** A date filter sees no difference between a window and its part inside
    the range of the dates it filters. *)
Lemma filter_window_clipped {A : Type} (date : A -> Z) (l : list A)
      (from_date to_date lo hi : Z) :
  (forall r, In r l -> lo <= date r <= hi) ->
  filter (fun r => (from_date <=? date r) && (date r <=? to_date)) l
  = filter (fun r => (Z.max from_date lo <=? date r) && (date r <=? Z.min to_date hi)) l.
Proof.
  intros H. apply filter_ext_in. intros r Hr. specialize (H r Hr).
  destruct (from_date <=? date r) eqn:E1; destruct (date r <=? to_date) eqn:E2;
    destruct (Z.max from_date lo <=? date r) eqn:E3;
    destruct (date r <=? Z.min to_date hi) eqn:E4; simpl; try reflexivity; lia.
Qed.

Lemma filter_none {A : Type} (f : A -> bool) (l : list A) :
  (forall r, In r l -> f r = false) -> filter f l = [].
Proof.
  induction l as [|a l IH]; intros H; simpl; [reflexivity|].
  rewrite (H a (or_introl eq_refl)). apply IH. intros r Hr. apply H. now right.
Qed.

Lemma group_add_keys (t v : Z) (acc : list (Z * Z)) (k : Z) :
  In k (map fst (Cases.group_add t v acc)) -> k = t \/ In k (map fst acc).
Proof.
  induction acc as [|[t' v'] acc IH]; simpl.
  - intros [<- | []]. now left.
  - destruct (t <? t'); [|destruct (t =? t')]; simpl.
    + intros [<- | H]; [now left | now right].
    + intros H. now right.
    + intros [<- | H]; [right; now left|].
      destruct (IH H) as [-> | H']; [now left | right; now right].
Qed.

Lemma groupby_sum_keys (rows : list CaseRow) (k : Z) :
  In k (map fst (Cases.groupby_sum rows)) -> In k (map Time rows).
Proof.
  unfold Cases.groupby_sum.
  assert (G : forall acc,
             In k (map fst (fold_left
                              (fun acc r => Cases.group_add (Time r) (Anzahl r) acc)
                              rows acc)) ->
             In k (map Time rows) \/ In k (map fst acc)).
  { induction rows as [|r rows IH]; intros acc H; simpl in *.
    - now right.
    - destruct (IH _ H) as [H' | H']; [left; now right|].
      apply group_add_keys in H'. destruct H' as [-> | H']; [left; now left | now right]. }
  intros H. destruct (G [] H) as [H' | []]. exact H'.
Qed.

Lemma diff_keys (l : list (Z * Z)) : map fst (Cases.diff l) = map fst l.
Proof.
  destruct l as [|[t v] l]; [reflexivity|]. simpl. f_equal.
  revert v. induction l as [|[t' v'] l IH]; intros v; simpl; [reflexivity|].
  now rewrite IH.
Qed.

(** C7. A window that reaches outside the available range raises nothing on
    that account: each provider returns what it returns for the part of the
    window inside its range of dates, which is a shorter or an empty series,
    and the occupancy provider returns a series for every window. *)
Theorem window_is_clipped_to_available_range
        (occupancy_data : OccupancyData) (case_data : CaseData)
        (from_date to_date buffer : Z) (state type : string)
        (age_groups : list string) (lo hi clo chi : Z) :
  Occupancy.min_date occupancy_data = Some lo ->
  Occupancy.max_date occupancy_data = Some hi ->
  Cases.min_date case_data = Some clo ->
  Cases.max_date case_data = Some chi ->
  Occupancy.get_array occupancy_data from_date to_date state type
  = Occupancy.get_array occupancy_data (Z.max from_date lo) (Z.min to_date hi) state type
  /\ Cases.get_array case_data from_date to_date state age_groups buffer
     = Cases.get_array case_data (Z.max (from_date - buffer) clo) (Z.min to_date chi)
         state age_groups 0
  /\ is_ok (Occupancy.get_array occupancy_data from_date to_date state "ICU") = true
  /\ is_ok (Occupancy.get_array occupancy_data from_date to_date state "normal") = true.
Proof.
  intros Hlo Hhi Hclo Hchi. repeat split.
  - unfold Occupancy.get_array, Occupancy.get_df.
    destruct (String.eqb type "ICU"); [|destruct (String.eqb type "normal")];
      cbn [bind]; try reflexivity.
    + rewrite (filter_window_clipped fst _ from_date to_date lo hi); [reflexivity|].
      intros r Hr.
      apply in_map_iff in Hr as (row & <- & Hrow). apply filter_In in Hrow as [Hrow _].
      simpl. split.
      * apply (column_min_le _ _ _ Hlo). now apply in_map.
      * apply (column_max_ge _ _ _ Hhi). now apply in_map.
    + rewrite (filter_window_clipped fst _ from_date to_date lo hi); [reflexivity|].
      intros r Hr.
      apply in_map_iff in Hr as (row & <- & Hrow). apply filter_In in Hrow as [Hrow _].
      simpl. split.
      * apply (column_min_le _ _ _ Hlo). now apply in_map.
      * apply (column_max_ge _ _ _ Hhi). now apply in_map.
  - unfold Cases.get_array, Cases.get_df.
    rewrite Z.sub_0_r.
    rewrite (filter_window_clipped fst _ (from_date - buffer) to_date clo chi);
      [reflexivity|].
    intros r Hr.
    assert (Hk : In (fst r) (map Time case_data)).
    { apply (in_map fst) in Hr. rewrite diff_keys in Hr.
      apply groupby_sum_keys in Hr. apply in_map_iff in Hr as (row & Hrow & Hin).
      apply filter_In in Hin as [Hin _]. apply filter_In in Hin as [Hin _].
      rewrite <- Hrow. now apply in_map. }
    split.
    + now apply (column_min_le _ _ _ Hclo).
    + now apply (column_max_ge _ _ _ Hchi).
Qed.

(** C8. An unknown bed type makes the occupancy provider raise ValueError at
    once, whatever the data and the window; an unknown region raises nothing:
    both providers return the empty series for it. *)
Theorem unknown_selectors
        (occupancy_data : OccupancyData) (case_data : CaseData)
        (from_date to_date buffer : Z) (state type : string)
        (age_groups : list string) :
  (type <> "ICU" -> type <> "normal" ->
   Occupancy.get_array occupancy_data from_date to_date state type = Raise ValueError)
  /\ ((forall r, In r occupancy_data -> oBundesland r <> state) ->
      type = "ICU" \/ type = "normal" ->
      Occupancy.get_array occupancy_data from_date to_date state type = Ok [])
  /\ ((forall r, In r case_data -> cBundesland r <> state) ->
      Cases.get_array case_data from_date to_date state age_groups buffer = Ok []).
Proof.
  repeat split.
  - intros H1 H2. unfold Occupancy.get_array, Occupancy.get_df.
    apply String.eqb_neq in H1, H2. now rewrite H1, H2.
  - intros Hstate Htype. unfold Occupancy.get_array, Occupancy.get_df.
    rewrite (filter_none (fun r => String.eqb (oBundesland r) state)).
    + destruct Htype; subst type; reflexivity.
    + intros r Hr. apply String.eqb_neq. now apply Hstate.
  - intros Hstate. unfold Cases.get_array, Cases.get_df.
    rewrite (filter_none (fun r => String.eqb (cBundesland r) state)).
    + reflexivity.
    + intros r Hr. apply String.eqb_neq. now apply Hstate.
Qed.

(** ** The objective *)

Lemma broadcast_same_length (actual pred : list Z) :
  length actual = length pred -> broadcast actual pred = Ok (combine actual pred).
Proof.
  intros H. unfold broadcast. now rewrite H, Nat.eqb_refl.
Qed.

Lemma fold_fadd_fin (cells : list (Z * Z)) (c : Q) :
  Forall (fun cell => fst cell <> 0) cells ->
  fold_left fadd (map (fun cell => abs_pct (fst cell) (snd cell)) cells) (Fin c)
  = Fin (fold_left Qplus
           (map (fun cell =>
                   (inject_Z (Z.abs (fst cell - snd cell)) / inject_Z (fst cell))%Q)
                cells) c).
Proof.
  intros H. revert c. induction H as [|[a p] cells Ha _ IH]; intros c; simpl.
  - reflexivity.
  - unfold abs_pct at 2. simpl in Ha. apply Z.eqb_neq in Ha. rewrite Ha.
    simpl fadd. apply IH.
Qed.










(** ** Lengths *)

Lemma slice_from_length {A : Type} (a : list A) (b : Z) :
  length (slice_from a b)
  = (length a - Z.to_nat (slice_index (Z.of_nat (length a)) b))%nat.
Proof. unfold slice_from. apply length_skipn. Qed.

Lemma slice_from_length_of {A B : Type} (a : list A) (a' : list B) (b : Z) :
  length a = length a' -> length (slice_from a b) = length (slice_from a' b).
Proof. intros H. rewrite !slice_from_length, H. reflexivity. Qed.


Lemma add_rows_length (a b : list Z) :
  length (add_rows a b) = Nat.min (length a) (length b).
Proof.
  revert b. induction a as [|x a IH]; intros b; [reflexivity|].
  destruct b as [|y b]; [reflexivity|]. simpl. now rewrite IH.
Qed.

Lemma fold_add_rows_length (rest : list (list Z)) (first : list Z) (k : nat) :
  length first = k -> Forall (fun r => length r = k) rest ->
  length (fold_left add_rows rest first) = k.
Proof.
  revert first. induction rest as [|r rest IH]; intros first Hf Hr; [exact Hf|].
  inversion Hr as [|? ? Hr0 Hrest]; subst. simpl. apply IH; [|assumption].
  rewrite add_rows_length, Hr0. lia.
Qed.

Section Lengths.

Context {RS : RandomStream}.
Variable nan_as_int : Z.

Lemma admit_day_length (k : nat) :
  forall delays stays t pos i occupancy occupancy',
    admit_day delays stays t pos i k occupancy = Ok occupancy' ->
    length occupancy' = length occupancy.
Proof.
  induction k as [|k IH]; intros delays stays t pos i occupancy occupancy' H.
  - inversion H. reflexivity.
  - simpl in H.
    destruct (np_index delays (pos + i)) as [d|e]; [|discriminate].
    destruct (np_index stays (pos + i)) as [s|e]; [|discriminate].
    simpl in H. apply IH in H. now rewrite slice_add1_length in H.
Qed.

Lemma days_loop_length (hospitalizations : list Z) :
  forall delays stays t pos occupancy occupancy',
    days_loop delays stays t hospitalizations pos occupancy = Ok occupancy' ->
    length occupancy' = length occupancy.
Proof.
  induction hospitalizations as [|h rest IH];
    intros delays stays t pos occupancy occupancy' H.
  - inversion H. reflexivity.
  - simpl in H.
    destruct (admit_day delays stays t pos 0 (Z.to_nat h) occupancy) as [o|e] eqn:E;
      [|discriminate].
    simpl in H. apply IH in H. apply admit_day_length in E. congruence.
Qed.

(** Whatever the inputs, a result of [simulate] is as long as the case array
    without its first [buffer] entries. *)
Lemma simulate_length (m : CausalModel) (w : Z) (r : list Z) :
  simulate m w = Ok r -> length r = length (slice_from (cases m) (_buffer m)).
Proof.
  unfold simulate. intros H.
  destruct (Qeq_bool _ _); [discriminate|].
  destruct (_ || _); [discriminate|].
  destruct (poisson _ _ _) as [delays g1].
  destruct (negb _); [discriminate|].
  destruct (truncnorm_rvs _ _ _ _ _) as [draws g2].
  destruct (days_loop _ _ _ _ _ _) as [o|e] eqn:E; [|discriminate].
  simpl in H. inversion H; subst.
  apply days_loop_length in E. apply slice_from_length_of.
  now rewrite E, repeat_length.
Qed.

Lemma run_replicas_lengths (m : CausalModel) (ws : list Z) (sims : list (list Z)) :
  run_replicas m ws = Ok sims ->
  Forall (fun r => length r = length (slice_from (cases m) (_buffer m))) sims.
Proof.
  revert sims. induction ws as [|w ws IH]; intros sims H; simpl in H.
  - inversion H. constructor.
  - destruct (simulate m w) as [r|e] eqn:E; [|discriminate]. simpl in H.
    destruct (run_replicas m ws) as [rs|e]; [|discriminate]. simpl in H.
    inversion H; subst. constructor; [exact (simulate_length m w r E) | now apply IH].
Qed.



(** ** The state of the model object *)

Lemma update_restores (m m1 : CausalModel) (t : Z) :
  consistent m ->
  update None None None None (Some t) None m = (Ok tt, m1) ->
  update None None None None (Some (_to_date m)) None m1 = (Ok tt, m).
Proof.
  intros [Ho Hc] H. destruct m. unfold update in *. simpl in *.
  destruct (Occupancy.get_array _ _ t _ _) as [o|e]; [|discriminate].
  destruct (Cases.get_array _ _ t _ _ _) as [c|e]; [|discriminate].
  inversion H; subst. simpl. rewrite Ho. simpl. rewrite Hc. reflexivity.
Qed.

End Lengths.

(** ** The optimizer stays inside the box *)

Lemma within_boundsb_sound (v : list Q) (bounds : list (Q * Q)) :
  within_boundsb v bounds = true -> within_bounds v bounds.
Proof.
  unfold within_boundsb, within_bounds. intros H.
  apply andb_prop in H as [Hlen Hall]. apply Nat.eqb_eq in Hlen.
  revert bounds Hlen Hall. induction v as [|c v IH]; intros bounds Hlen Hall.
  - destruct bounds; [constructor | discriminate].
  - destruct bounds as [|b bounds]; [discriminate|]. simpl in *.
    apply andb_prop in Hall as [Hc Hrest]. apply andb_prop in Hc as [H1 H2].
    constructor.
    + split; now apply Qle_bool_iff.
    + apply IH; [lia | assumption].
Qed.

Lemma clamp_within (b : Q * Q) (c : Q) :
  (fst b <= snd b)%Q -> (fst b <= clamp b c)%Q /\ (clamp b c <= snd b)%Q.
Proof.
  intros H. unfold clamp. split.
  - apply Q.le_max_l.
  - apply Q.max_lub; [exact H | apply Q.le_min_l].
Qed.

Lemma scale_point_within (b : Q * Q) (u : Q) :
  (fst b <= snd b)%Q -> (0 <= u)%Q -> (u <= 1)%Q ->
  (fst b <= scale_point b u)%Q /\ (scale_point b u <= snd b)%Q.
Proof.
  intros Hb H0 H1. unfold scale_point.
  assert (Hd : (0 <= snd b - fst b)%Q).
  { apply (Qplus_le_l _ _ (fst b)). ring_simplify. exact Hb. }
  split.
  - rewrite <- (Qplus_0_r (fst b)) at 1. apply Qplus_le_r.
    now apply Qmult_le_0_compat.
  - assert (Hm : (u * (snd b - fst b) <= 1 * (snd b - fst b))%Q)
      by (now apply Qmult_le_compat_r).
    apply (Qplus_le_r _ _ (fst b)) in Hm.
    eapply Qle_trans; [exact Hm|]. ring_simplify. apply Qle_refl.
Qed.

(** A vector computed coordinate by coordinate lies in the box when each
    coordinate lies between its two bounds. *)
Lemma coordinates_within_from (f : nat * (Q * Q) -> Q) (bs : list (Q * Q)) (k : nat) :
  (forall j b, In b bs -> (fst b <= f (j, b))%Q /\ (f (j, b) <= snd b)%Q) ->
  within_bounds (map f (combine (seq k (length bs)) bs)) bs.
Proof.
  unfold within_bounds. revert k.
  induction bs as [|b bs IH]; intros k H; simpl; constructor.
  - apply H. now left.
  - apply IH. intros j b' Hb'. apply H. now right.
Qed.

Lemma coordinates_within (f : nat * (Q * Q) -> Q) (bs : list (Q * Q)) :
  (forall j b, In b bs -> (fst b <= f (j, b))%Q /\ (f (j, b) <= snd b)%Q) ->
  within_bounds (map f (coordinates bs)) bs.
Proof. apply coordinates_within_from. Qed.

Section OptimizerInvariant.

Context {OS : OptimizerStream}.
Variable popsize : nat.
Variable converged : list float -> bool.
Variable func : list Q -> result float.
Variable bounds : list (Q * Q).
Variable seed : Z.

Hypothesis bounds_ok : well_formed_bounds bounds.

Lemma init_member_within (i : nat) :
  within_bounds (init_member bounds seed i) bounds.
Proof.
  unfold init_member. apply coordinates_within. intros j b Hb. simpl.
  unfold well_formed_bounds in bounds_ok. rewrite Forall_forall in bounds_ok.
  destruct (unit_point_range seed i j) as [H0 H1].
  apply scale_point_within; auto.
Qed.

Lemma trial_within (gen : nat) (population : list (list Q)) (best : list Q) (i : nat) :
  within_bounds (trial popsize bounds seed gen population best i) bounds.
Proof.
  unfold trial. apply coordinates_within. intros j b Hb. simpl.
  unfold well_formed_bounds in bounds_ok. rewrite Forall_forall in bounds_ok.
  apply clamp_within. auto.
Qed.

Lemma select_within (old new : list (list Q * float)) :
  all_within bounds old -> all_within bounds new -> all_within bounds (select old new).
Proof.
  unfold all_within. intros Ho. revert new.
  induction Ho as [|[v e] old Hv _ IH]; intros new Hn; simpl; [constructor|].
  destruct new as [|[v' e'] new]; [constructor|].
  inversion Hn as [|? ? Hv' Hn']; subst. constructor.
  - now destruct (float_ltb e' e).
  - now apply IH.
Qed.

Lemma best_of_member (rest : list (list Q * float)) (v : list Q) (e : float) :
  In (best_of v e rest) ((v, e) :: rest).
Proof.
  revert v e. induction rest as [|[v' e'] rest IH]; intros v e; simpl.
  - now left.
  - destruct (float_ltb e' e).
    + right. apply IH.
    + destruct (IH v e) as [H | H]; [now left | right; now right].
Qed.

Lemma evolve_within (fuel : nat) :
  forall gen scored scored' gen',
    all_within bounds scored ->
    evolve popsize converged func bounds seed fuel gen scored = Ok (scored', gen') ->
    all_within bounds scored'.
Proof.
  induction fuel as [|fuel IH]; intros gen scored scored' gen' Hs H;
    cbn [evolve] in H.
  - now inversion H; subst.
  - destruct (converged (map snd scored)); [now inversion H; subst|].
    destruct scored as [|[v e] rest]; [now inversion H; subst|].
    destruct (evaluate func _) as [energies|err]; [|discriminate].
    cbn [bind] in H. apply IH in H; [exact H|].
    apply select_within; [exact Hs|].
    unfold all_within. apply Forall_forall. intros [t et] Hin.
    apply in_combine_l in Hin. apply in_map_iff in Hin as (i & <- & _).
    apply trial_within.
Qed.

Lemma evaluate_length (population : list (list Q)) (energies : list float) :
  evaluate func population = Ok energies -> length energies = length population.
Proof.
  revert energies. induction population as [|v rest IH]; intros energies H; simpl in H.
  - now inversion H.
  - destruct (func v) as [e|err]; [|discriminate]. simpl in H.
    destruct (evaluate func rest) as [es|err]; [|discriminate]. simpl in H.
    inversion H; subst. simpl. now rewrite (IH es).
Qed.

Lemma init_population_within (x0 : option (list Q)) :
  match x0 with Some v => within_bounds v bounds | None => True end ->
  Forall (fun v => within_bounds v bounds) (init_population popsize bounds seed x0).
Proof.
  intros H. unfold init_population. destruct x0 as [v|].
  - constructor; [exact H|]. apply Forall_map, Forall_forall.
    intros i _. apply init_member_within.
  - apply Forall_map, Forall_forall. intros i _. apply init_member_within.
Qed.

Lemma differential_evolution_within (maxiter : nat) (x0 : option (list Q))
      (r : OptimizeResult) :
  differential_evolution popsize converged func bounds seed maxiter x0 = Ok r ->
  within_bounds (x r) bounds.
Proof.
  unfold differential_evolution. intros H.
  assert (Hx0 : match x0 with Some v => within_bounds v bounds | None => True end).
  { destruct x0 as [v|]; [|exact I].
    destruct (within_boundsb v bounds) eqn:E; [|discriminate].
    now apply within_boundsb_sound. }
  destruct (match x0 with Some v => _ | None => _ end) as [[]|err]; [|discriminate].
  cbn [bind] in H.
  destruct (evaluate func _) as [energies|err]; [|discriminate]. cbn [bind] in H.
  destruct (evolve _ _ _ _ _ _ _ _) as [[scored gen]|err] eqn:E; [|discriminate].
  cbn [bind fst snd] in H.
  apply evolve_within in E.
  - destruct scored as [|[v e] rest]; [discriminate|]. inversion H; subst. simpl.
    unfold all_within in E. rewrite Forall_forall in E.
    apply (E (best_of v e rest)). apply best_of_member.
  - unfold all_within. apply Forall_forall. intros [v e] Hin.
    apply in_combine_l in Hin. simpl.
    pose proof (init_population_within x0 Hx0) as Hp.
    rewrite Forall_forall in Hp. now apply Hp.
Qed.

End OptimizerInvariant.

Section CalibratorClaims.

Context {RS : RandomStream} {OS : OptimizerStream}.
Variable nan_as_int : Z.
Variable popsize : nat.
Variable converged : list float -> bool.

(** C3. A calibration that completes on a box whose lower bounds do not
    exceed the upper bounds returns a best vector every component of which
    lies between its two bounds, inclusive; with four bounds this vector is
    also what the model holds as its parameters afterwards. *)
Theorem calibrate_within_bounds (n : Z) (bounds : list (Q * Q)) (maxiter : nat)
        (use_x0 disp : bool) (m m' : CausalModel) (r : OptimizeResult) :
  well_formed_bounds bounds ->
  calibrate nan_as_int popsize converged n bounds maxiter use_x0 disp m = (Ok r, m') ->
  within_bounds (x r) bounds
  /\ (length bounds = 4%nat -> params m' = x r).
Proof.
  intros Hb H. unfold calibrate in H.
  destruct (differential_evolution _ _ _ _ _ _ _) as [res|e] eqn:E; [|discriminate].
  apply (differential_evolution_within _ _ _ _ _ Hb) in E.
  destruct (params_setter (x res) m) as [[[]|e] m2] eqn:Es; [|discriminate].
  inversion H; subst. split; [exact E|].
  intros Hlen. unfold within_bounds in E. apply Forall2_length in E.
  rewrite Hlen in E.
  destruct (x r) as [|a [|b [|c [|d [|? ?]]]]]; try discriminate.
  simpl in Es. inversion Es; subst. reflexivity.
Qed.


End CalibratorClaims.

(** * Concrete runs

    The model on the point-mass generator and the small provider of
    [PointMass]. *)


Example scenario_occupancy :
  @simulate PointMass.stream scenario 0 = Ok [10; 10; 10; 10; 0; 0; 0].
Proof. reflexivity. Qed.

(** A day-over-day difference can be negative; the partial sums of the
    admissions then leave the batch and the index raises. *)
Example negative_case_count :
  @simulate PointMass.stream (PointMass.model 1 0 3 1 0 [] [3; -2]) 0
  = Raise IndexError.
Proof. reflexivity. Qed.

(** Python's division raises on a scale of zero. *)
Example zero_scale :
  @simulate PointMass.stream (PointMass.model 1 0 3 0 0 [] [1]) 0
  = Raise ZeroDivisionError.
Proof. reflexivity. Qed.

Example init_window_model :
  init 1 0 3 1 "Wien" "normal" ["<5"] 2 4 0 PointMass.case_file
    PointMass.occupancy_file 0 0 = Ok PointMass.window_model.
Proof. reflexivity. Qed.

Example init_icu_model :
  init 1 0 3 1 "Wien" "ICU" ["<5"] 2 4 0 PointMass.case_file
    PointMass.occupancy_file 0 0 = Ok PointMass.icu_model.
Proof. reflexivity. Qed.


(** A call with no forecast day returns the whole simulated window:
    [simulation[-0:]] is [simulation[0:]]. *)
Example predict_zero_days :
  fst (@predict PointMass.stream 0 0 1 "sequential" PointMass.window_model)
  = Ok [10; 10; 13].
Proof. reflexivity. Qed.

(** An exception between the two updates leaves the window extended. *)
Example predict_unknown_method :
  fst (@predict PointMass.stream 0 2 1 "threads" PointMass.window_model)
  = Raise ValueError
  /\ _to_date (snd (@predict PointMass.stream 0 2 1 "threads" PointMass.window_model))
     = 6.
Proof. split; reflexivity. Qed.




Example short_window_bed_days :
  map (fun a => (end_stay a - begin_stay a, bed_days_within 1 a))
      (@admissions PointMass.stream short_window 0)
  = [(4, 1)].
Proof. reflexivity. Qed.

(** C9, witness: two replicas with the cells 1 and 0 have the mean 1/2, and
    the aggregate is 0. *)
Lemma monte_carlo_ties_to_even_witness :
  exists out,
    @monte_carlo PointMass.stream 0 one_case 2 "parallel" = Ok (Vector out)
    /\ nth 0 out 0 = if Z.even 0 then 0 else 0 + 1.
Proof.
  apply (@monte_carlo_ties_to_even PointMass.stream 0 one_case 2
           [[1]; [0]] 0%nat 0 "parallel").
  - reflexivity.
  - lia.
  - simpl. lia.
  - reflexivity.
  - left. reflexivity.
Defined.

Example ties_to_even_runs :
  @monte_carlo PointMass.stream 0 one_case 2 "parallel" = Ok (Vector [0])
  /\ @monte_carlo PointMass.stream 0 (PointMass.model 1 0 3 1 0 [] [3]) 2 "sequential"
     = Ok (Vector [2])
  /\ around (1 # 2) = 0 /\ around (3 # 2) = 2 /\ around (5 # 2) = 2.
Proof. repeat split; reflexivity. Qed.

(** C3, witness: a calibration of two generations on a population of four. *)
Lemma calibrate_within_bounds_witness :
  exists r m',
    @calibrate PointMass.stream PointMass.optimizer 0 4 (fun _ => false) 2
      [(0, 1); (0, 2); (1, 4); (1, 2)]%Q 2 false false PointMass.window_model
    = (Ok r, m')
    /\ within_bounds (x r) [(0, 1); (0, 2); (1, 4); (1, 2)]%Q
    /\ (length [(0, 1); (0, 2); (1, 4); (1, 2)]%Q = 4%nat -> params m' = x r).
Proof.
  eexists. eexists. split.
  - vm_compute. reflexivity.
  - apply (@calibrate_within_bounds PointMass.stream PointMass.optimizer 0 4
             (fun _ => false) 2 [(0, 1); (0, 2); (1, 4); (1, 2)]%Q 2 false false
             PointMass.window_model).
    + repeat constructor; discriminate.
    + vm_compute. reflexivity.
Defined.







(** C7, witness. *)
Lemma window_is_clipped_witness :
  Occupancy.get_array PointMass.occupancy_file 5 10 "Wien" "normal"
  = Occupancy.get_array PointMass.occupancy_file (Z.max 5 1) (Z.min 10 6) "Wien" "normal"
  /\ Cases.get_array PointMass.case_file 5 10 "Wien" ["<5"] 2
     = Cases.get_array PointMass.case_file (Z.max (5 - 2) 1) (Z.min 10 6) "Wien" ["<5"] 0
  /\ is_ok (Occupancy.get_array PointMass.occupancy_file 5 10 "Wien" "ICU") = true
  /\ is_ok (Occupancy.get_array PointMass.occupancy_file 5 10 "Wien" "normal") = true.
Proof.
  apply (window_is_clipped_to_available_range PointMass.occupancy_file
           PointMass.case_file 5 10 2 "Wien" "normal" ["<5"] 1 6 1 6);
    reflexivity.
Defined.

(** C7, counterexample: the providers end on day 6; the window of the days 5
    to 10 yields two entries and the window of the days 20 to 30 none, with
    no error, also through [update]. *)
Lemma window_outside_range_counterexample :
  Occupancy.max_date PointMass.occupancy_file = Some 6
  /\ Cases.max_date PointMass.case_file = Some 6
  /\ Occupancy.get_array PointMass.occupancy_file 5 10 "Wien" "normal" = Ok [10; 3]
  /\ Cases.get_array PointMass.case_file 5 10 "Wien" ["<5"] 0 = Ok [0; 1]
  /\ Occupancy.get_array PointMass.occupancy_file 20 30 "Wien" "normal" = Ok []
  /\ fst (update None None None (Some 5) (Some 10) None PointMass.window_model) = Ok tt.
Proof. repeat split; reflexivity. Qed.

(** C8, witness. *)
Lemma unknown_selectors_witness :
  Occupancy.get_array PointMass.occupancy_file 2 4 "Wien" "all" = Raise ValueError
  /\ Occupancy.get_array PointMass.occupancy_file 2 4 "Atlantis" "normal" = Ok []
  /\ Cases.get_array PointMass.case_file 2 4 "Atlantis" ["<5"] 0 = Ok [].
Proof.
  split; [|split].
  - apply (proj1 (unknown_selectors PointMass.occupancy_file PointMass.case_file
                    2 4 0 "Wien" "all" ["<5"])); discriminate.
  - apply (proj1 (proj2 (unknown_selectors PointMass.occupancy_file PointMass.case_file
                           2 4 0 "Atlantis" "normal" ["<5"]))).
    + intros r Hr. simpl in Hr.
      repeat (destruct Hr as [<- | Hr]; [discriminate|]). destruct Hr.
    + right. reflexivity.
  - apply (proj2 (proj2 (unknown_selectors PointMass.occupancy_file PointMass.case_file
                           2 4 0 "Atlantis" "normal" ["<5"]))).
    intros r Hr. simpl in Hr.
    repeat (destruct Hr as [<- | Hr]; [discriminate|]). destruct Hr.
Defined.

(** C8, counterexample: a region that no line of the files names yields the
    empty series from both providers, and [update] accepts it. *)
Lemma unknown_region_counterexample :
  Occupancy.get_array PointMass.occupancy_file 2 4 "Atlantis" "normal" = Ok []
  /\ Cases.get_array PointMass.case_file 2 4 "Atlantis" ["<5"] 0 = Ok []
  /\ fst (update (Some "Atlantis") None None None None None PointMass.window_model)
     = Ok tt.
Proof. repeat split; reflexivity. Qed.

(** * Further properties *)

(** ** Simulation *)

Section SimulationMore.

Context {RS : RandomStream}.
Variable nan_as_int : Z.





(** X2. Buffer trimming: a result of [simulate] has the length of the case
    array less the buffer (none when the buffer is longer than the array);
    a negative buffer is a slice bound counted from the end, and the result
    is then the last [-buffer] days. *)
Theorem simulate_buffer_trimming (m : CausalModel) (w : Z) (r : list Z) :
  simulate m w = Ok r ->
  (0 <= _buffer m ->
   Z.of_nat (length r) = Z.max 0 (Z.of_nat (length (cases m)) - _buffer m))
  /\ (_buffer m < 0 ->
      Z.of_nat (length r) = Z.min (Z.of_nat (length (cases m))) (- _buffer m)).
Proof.
  intros H. apply simulate_length in H. rewrite H, slice_from_length.
  unfold slice_index. split; intros Hb.
  - destruct (_buffer m <? 0) eqn:E; lia.
  - destruct (_buffer m <? 0) eqn:E; lia.
Qed.




End SimulationMore.

(** ** Aggregation *)

Lemma around_between (s n lo hi : Z) :
  0 < n -> n * lo <= s <= n * hi ->
  lo <= around (inject_Z s / inject_Z n) <= hi.
Proof.
  intros Hn [Hlo Hhi]. destruct n as [|p|p]; try lia.
  rewrite around_div.
  assert (Hdm : s = Zpos p * (s / Zpos p) + s mod Zpos p)
    by (apply Z.div_mod; discriminate).
  assert (Hb : 0 <= s mod Zpos p < Zpos p)
    by (apply Z.mod_pos_bound; reflexivity).
  assert (Hf1 : lo <= s / Zpos p) by (apply Z.div_le_lower_bound; lia).
  assert (Hf2 : s / Zpos p <= hi) by (apply Z.div_le_upper_bound; lia).
  assert (Hup : 0 < s mod Zpos p -> s / Zpos p + 1 <= hi) by nia.
  destruct (2 * (s mod Zpos p) ?= Zpos p) eqn:E.
  - apply Z.compare_eq in E. destruct (Z.even (s / Zpos p)); lia.
  - lia.
  - apply Z.compare_gt_iff in E. lia.
Qed.

Lemma nth_add_rows (a b : list Z) (j : nat) :
  (j < length a)%nat -> (j < length b)%nat ->
  nth j (add_rows a b) 0 = nth j a 0 + nth j b 0.
Proof.
  revert b j. induction a as [|x a IH]; intros b j Ha Hb; [simpl in Ha; lia|].
  destruct b as [|y b]; [simpl in Hb; lia|].
  destruct j as [|j]; [reflexivity|]. simpl in *. apply IH; lia.
Qed.

Lemma column_total_between (rest : list (list Z)) :
  forall (first : list Z) (L j : nat) (c lo hi : Z),
    length first = L ->
    Forall (fun r => length r = L) rest ->
    (j < L)%nat ->
    c * lo <= nth j first 0 <= c * hi ->
    (forall row, In row rest -> lo <= nth j row 0 <= hi) ->
    (c + Z.of_nat (length rest)) * lo
    <= nth j (fold_left add_rows rest first) 0
    <= (c + Z.of_nat (length rest)) * hi.
Proof.
  induction rest as [|r rest IH]; intros first L j c lo hi Hf Hall Hj Hc Hrows.
  - simpl. rewrite Z.add_0_r. exact Hc.
  - inversion Hall as [|? ? Hr Hrest]; subst.
    cbn [fold_left length].
    replace (c + Z.of_nat (S (length rest))) with ((c + 1) + Z.of_nat (length rest))
      by lia.
    apply (IH (add_rows first r) (length first)); try assumption.
    + rewrite add_rows_length, Hr. lia.
    + rewrite nth_add_rows by lia.
      pose proof (Hrows r (or_introl eq_refl)). lia.
    + intros row Hin. apply Hrows. now right.
Qed.

Section AggregatorMore.

Context {RS : RandomStream}.
Variable nan_as_int : Z.

Lemma monte_carlo_runs (m : CausalModel) (n : Z) (method : string) (a : ndarray) :
  monte_carlo nan_as_int m n method = Ok a ->
  exists sims, run_replicas m (range n) = Ok sims
               /\ a = around_mean nan_as_int sims.
Proof.
  unfold monte_carlo. intros H.
  destruct (String.eqb method "parallel"); [|destruct (String.eqb method "sequential")].
  - destruct (run_replicas m (range n)) as [sims|e]; [|discriminate].
    exists sims. simpl in H. now inversion H.
  - destruct (run_replicas m (range n)) as [sims|e]; [|discriminate].
    exists sims. simpl in H. now inversion H.
  - discriminate.
Qed.

(** X4. Every cell of the aggregate lies between the smallest and the largest
    value the replicas have in that cell: rounding the mean never leaves the
    range of the replicas.  So replicas that agree on a day aggregate to
    their common value, whatever their number. *)
Theorem monte_carlo_between_replicas (m : CausalModel) (n : Z) (method : string)
        (sims : list (list Z)) (out : list Z) (j : nat) (lo hi : Z) :
  run_replicas m (range n) = Ok sims ->
  monte_carlo nan_as_int m n method = Ok (Vector out) ->
  (j < length out)%nat ->
  (forall row, In row sims -> lo <= nth j row 0 <= hi) ->
  lo <= nth j out 0 <= hi.
Proof.
  intros Hrun Hmc Hj Hrows.
  destruct (monte_carlo_runs _ _ _ _ Hmc) as (sims' & Hrun' & Hout).
  rewrite Hrun in Hrun'. inversion Hrun'; subst sims'.
  pose proof (run_replicas_lengths _ _ _ Hrun) as Hall.
  destruct sims as [|first rest]; [discriminate|].
  cbn [around_mean] in Hout. inversion Hout; subst out. clear Hout.
  inversion Hall as [|? ? Hfirst Hrest]; subst.
  rewrite length_map in Hj.
  set (f := fun s => around (inject_Z s / inject_Z (Z.of_nat (length (first :: rest))))).
  rewrite (nth_indep (map f (fold_left add_rows rest first)) 0 (f 0))
    by (rewrite length_map; exact Hj).
  rewrite map_nth. unfold f.
  assert (HL : length (fold_left add_rows rest first)
               = length (slice_from (cases m) (_buffer m)))
    by (now apply fold_add_rows_length).
  apply around_between; [simpl length; lia|].
  replace (Z.of_nat (length (first :: rest))) with (1 + Z.of_nat (length rest))
    by (simpl length; lia).
  apply (column_total_between rest first _ j 1 lo hi Hfirst Hrest).
  - lia.
  - pose proof (Hrows first (or_introl eq_refl)). lia.
  - intros row Hin. apply Hrows. now right.
Qed.

End AggregatorMore.

(** ** The window of the model object *)

Lemma update_same_window (m : CausalModel) :
  consistent m ->
  update None None None None (Some (_to_date m)) None m = (Ok tt, m).
Proof.
  intros [Ho Hc]. destruct m. unfold update. simpl in *.
  rewrite Ho. simpl. rewrite Hc. reflexivity.
Qed.

(** What an [update] that returns has done to the object. *)
Lemma update_ok_state
        (state bed_type : option string) (age_groups : option (list string))
        (from_date to_date buffer : option Z) (m m' : CausalModel) :
  update state bed_type age_groups from_date to_date buffer m = (Ok tt, m') ->
  consistent m'
  /\ params m' = params m
  /\ case_data m' = case_data m /\ occupancy_data m' = occupancy_data m
  /\ _state m' = or_else state (_state m)
  /\ _bed_type m' = or_else bed_type (_bed_type m)
  /\ _age_groups m' = or_else age_groups (_age_groups m)
  /\ _from_date m' = or_else from_date (_from_date m)
  /\ _to_date m' = or_else to_date (_to_date m)
  /\ _buffer m' = or_else buffer (_buffer m).
Proof.
  unfold update. intros H.
  destruct (Occupancy.get_array _ _ _ _ _) as [o|e] eqn:Eo; [|discriminate].
  destruct (Cases.get_array _ _ _ _ _ _) as [c|e] eqn:Ec; [|discriminate].
  inversion H; subst. clear H. destruct m. simpl in *.
  unfold consistent. simpl. repeat split; assumption.
Qed.

(** X5. An [update] that returns has assigned the given fields and kept the
    others, has left the parameters and the providers alone, and has
    fetched both cached arrays for the new window. *)
Theorem update_establishes_window
        (state bed_type : option string) (age_groups : option (list string))
        (from_date to_date buffer : option Z) (m m' : CausalModel) :
  update state bed_type age_groups from_date to_date buffer m = (Ok tt, m') ->
  consistent m'
  /\ params m' = params m
  /\ case_data m' = case_data m /\ occupancy_data m' = occupancy_data m
  /\ _state m' = or_else state (_state m)
  /\ _bed_type m' = or_else bed_type (_bed_type m)
  /\ _age_groups m' = or_else age_groups (_age_groups m)
  /\ _from_date m' = or_else from_date (_from_date m)
  /\ _to_date m' = or_else to_date (_to_date m)
  /\ _buffer m' = or_else buffer (_buffer m).
Proof.
  unfold update. intros H.
  destruct (Occupancy.get_array _ _ _ _ _) as [o|e] eqn:Eo; [|discriminate].
  destruct (Cases.get_array _ _ _ _ _ _) as [c|e] eqn:Ec; [|discriminate].
  inversion H; subst. clear H. destruct m. simpl in *.
  unfold consistent. simpl. repeat split; assumption.
Qed.

(** X6. The object [__init__] returns holds the given parameters, and its cached
    arrays are those of its window. *)
Lemma init_consistent
      (p lam loc scale : Q) (state bed_type : string) (age_groups : list string)
      (from_date to_date buffer : Z) (cd : CaseData) (od : OccupancyData)
      (sseed cseed : Z) (m : CausalModel) :
  init p lam loc scale state bed_type age_groups from_date to_date buffer cd od
    sseed cseed = Ok m ->
  consistent m /\ params m = [p; lam; loc; scale].
Proof.
  unfold init. intros H.
  destruct (update _ _ _ _ _ _ _) as [[[]|e] m1] eqn:E; [|discriminate].
  inversion H; subst. apply update_ok_state in E.
  destruct E as (Hc & Hp & _). split; [exact Hc | exact Hp].
Qed.

(** X7. An [update] that raises is not undone: the given fields are assigned
    all the same and the case array is the old one, so is the occupancy
    array unless it was the case provider that raised. *)
Theorem update_failure_keeps_assignments
        (state bed_type : option string) (age_groups : option (list string))
        (from_date to_date buffer : option Z) (m m' : CausalModel) (e : exn) :
  update state bed_type age_groups from_date to_date buffer m = (Raise e, m') ->
  _state m' = or_else state (_state m)
  /\ _bed_type m' = or_else bed_type (_bed_type m)
  /\ _age_groups m' = or_else age_groups (_age_groups m)
  /\ _from_date m' = or_else from_date (_from_date m)
  /\ _to_date m' = or_else to_date (_to_date m)
  /\ _buffer m' = or_else buffer (_buffer m)
  /\ cases m' = cases m
  /\ (occupancy m' = occupancy m
      \/ Occupancy.get_array (occupancy_data m') (_from_date m') (_to_date m')
           (_state m') (_bed_type m') = Ok (occupancy m')).
Proof.
  unfold update. intros H.
  destruct (Occupancy.get_array _ _ _ _ _) as [o|eo] eqn:Eo.
  - destruct (Cases.get_array _ _ _ _ _ _) as [c|ec] eqn:Ec; [discriminate|].
    inversion H; subst. clear H. destruct m. simpl in *.
    repeat split; try reflexivity. right. exact Eo.
  - inversion H; subst. clear H. destruct m. simpl in *.
    repeat split; try reflexivity. now left.
Qed.

Section ForecastMore.

Context {RS : RandomStream}.
Variable nan_as_int : Z.

(** X8. With no forecast day [predict] returns the whole aggregate of the
    current window, not an empty series: [simulation[-0:]] is the whole
    array.  The model object is unchanged. *)
Theorem predict_zero_days_whole_window (n : Z) (method : string) (m : CausalModel) :
  consistent m ->
  predict nan_as_int 0 n method m
  = (match monte_carlo nan_as_int m n method with
     | Ok (Vector l) => Ok l
     | Ok (Scalar _) => Raise IndexError
     | Raise e => Raise e
     end, m).
Proof.
  intros Hc. unfold predict. rewrite Z.add_0_r.
  rewrite (update_same_window m Hc).
  destruct (monte_carlo nan_as_int m n method) as [[l|v]|e]; [| |reflexivity].
  - rewrite (update_same_window m Hc). cbn [last_days]. do 2 f_equal.
    unfold slice_from, slice_index. cbn [Z.opp Z.ltb Z.compare].
    rewrite Z.min_l by lia. reflexivity.
  - rewrite (update_same_window m Hc). reflexivity.
Qed.

(** X9. An exception of the aggregation inside [predict], an unknown method for
    one, leaves the model object on the extended window: the second
    [update] is not reached. *)
Theorem predict_failure_keeps_extended_window
        (days n : Z) (method : string) (m m1 : CausalModel) (e : exn) :
  update None None None None (Some (_to_date m + days)) None m = (Ok tt, m1) ->
  monte_carlo nan_as_int m1 n method = Raise e ->
  predict nan_as_int days n method m = (Raise e, m1)
  /\ _to_date m1 = _to_date m + days.
Proof.
  intros Hu Hmc. split.
  - unfold predict. now rewrite Hu, Hmc.
  - apply update_ok_state in Hu. now destruct Hu as (_ & _ & _ & _ & _ & _ & _ & _ & H & _).
Qed.

(** X10. With no replica to run, [predict] raises IndexError (the mean of nothing
    is a zero-dimensional array, which cannot be sliced), after it has put
    the window back. *)
Theorem predict_without_replicas
        (days n : Z) (method : string) (m m1 : CausalModel) :
  consistent m ->
  n <= 0 ->
  method = "parallel" \/ method = "sequential" ->
  update None None None None (Some (_to_date m + days)) None m = (Ok tt, m1) ->
  predict nan_as_int days n method m = (Raise IndexError, m).
Proof.
  intros Hc Hn Hmethod Hu. unfold predict. rewrite Hu.
  assert (Hmc : monte_carlo nan_as_int m1 n method = Ok (Scalar nan_as_int)).
  { unfold monte_carlo, range. replace (Z.to_nat n) with 0%nat by lia.
    destruct Hmethod; subst method; reflexivity. }
  rewrite Hmc, (update_restores m m1 _ Hc Hu). reflexivity.
Qed.

End ForecastMore.

(** ** The case provider *)

Lemma ascending_filter {A : Type} (f : Z * A -> bool) (l : list (Z * A)) :
  ascending l -> ascending (filter f l).
Proof.
  induction l as [|[t v] l IH]; intros H; [exact I|].
  destruct H as [Ht Hl]. simpl. destruct (f (t, v)); [|now apply IH].
  split; [|now apply IH].
  apply Forall_forall. intros e He. apply filter_In in He as [He _].
  rewrite Forall_forall in Ht. now apply Ht.
Qed.

Lemma group_add_ascending (t v : Z) (acc : list (Z * Z)) :
  ascending acc -> ascending (Cases.group_add t v acc).
Proof.
  induction acc as [|[t' v'] acc IH]; intros H.
  - simpl. split; [constructor | exact I].
  - destruct H as [Ht Hacc]. cbn [Cases.group_add].
    destruct (t <? t') eqn:E1; [|destruct (t =? t') eqn:E2].
    + split; [|split; assumption].
      constructor; [simpl; lia|].
      eapply Forall_impl; [|exact Ht]. simpl. intros. lia.
    + split; assumption.
    + split; [|now apply IH].
      apply Forall_forall. intros e He.
      assert (Hk : In (fst e) (map fst (Cases.group_add t v acc))) by now apply in_map.
      apply group_add_keys in Hk. destruct Hk as [-> | Hk]; [lia|].
      apply in_map_iff in Hk as (e' & <- & He').
      rewrite Forall_forall in Ht. now apply Ht.
Qed.

Lemma groupby_sum_ascending (rows : list CaseRow) :
  ascending (Cases.groupby_sum rows).
Proof.
  unfold Cases.groupby_sum.
  assert (G : forall acc, ascending acc ->
                          ascending (fold_left
                                       (fun acc r => Cases.group_add (Time r) (Anzahl r) acc)
                                       rows acc)).
  { induction rows as [|r rows IH]; intros acc H; [exact H|].
    simpl. apply IH. now apply group_add_ascending. }
  apply G. exact I.
Qed.


(** Ascending order only looks at the dates. *)
Lemma ascending_keys {A B : Type} (l : list (Z * A)) (l' : list (Z * B)) :
  map fst l = map fst l' -> ascending l -> ascending l'.
Proof.
  revert l'. induction l as [|[t v] l IH]; intros l' E H.
  - destruct l'; [exact I | discriminate].
  - destruct l' as [|[t' v'] l']; [discriminate|]. simpl in E.
    injection E as -> E. destruct H as [Ht Hl]. split; [|now apply (IH l')].
    apply Forall_forall. intros e He.
    assert (Hk : In (fst e) (map fst l)) by (rewrite E; now apply in_map).
    apply in_map_iff in Hk as (e' & <- & He').
    rewrite Forall_forall in Ht. now apply Ht.
Qed.

Lemma astype_int_keys (l : list (Z * option Z)) (df : list (Z * Z)) :
  Cases.astype_int l = Ok df -> map fst df = map fst l.
Proof.
  revert df. induction l as [|[t [v|]] l IH]; intros df H; simpl in H.
  - now inversion H.
  - destruct (Cases.astype_int l) as [r|e]; [|discriminate]. simpl in H.
    inversion H; subst. simpl. now rewrite (IH r).
  - discriminate.
Qed.

Lemma ascending_length {A : Type} (l : list (Z * A)) (a b : Z) :
  ascending l -> Forall (fun e => a <= fst e <= b) l ->
  Z.of_nat (length l) <= Z.max 0 (b - a + 1).
Proof.
  revert a. induction l as [|[t v] l IH]; intros a Hasc Hin; [simpl; lia|].
  destruct Hasc as [Ht Hl]. inversion Hin as [|? ? Ha Hrest]; subst. simpl in Ha.
  assert (Hrest' : Forall (fun e => t + 1 <= fst e <= b) l).
  { apply Forall_forall. intros e He. rewrite Forall_forall in Ht, Hrest.
    specialize (Ht e He). specialize (Hrest e He). simpl in *. lia. }
  specialize (IH (t + 1) Hl Hrest'). simpl length. lia.
Qed.

(** X11. The case provider returns the days of the window in ascending order and
    no day twice, whatever the order and the number of the lines of the
    file: at most one entry for each day of [from_date - buffer, to_date]. *)
Theorem cases_one_entry_per_day
        (data : CaseData) (from_date to_date buffer : Z) (state : string)
        (age_groups : list string) (df : list (Z * Z)) :
  Cases.get_df data from_date to_date state age_groups buffer = Ok df ->
  ascending df
  /\ Forall (fun r => from_date - buffer <= fst r <= to_date) df
  /\ Z.of_nat (length df) <= Z.max 0 (to_date - (from_date - buffer) + 1)
  /\ Cases.get_array data from_date to_date state age_groups buffer = Ok (map snd df).
Proof.
  intros H. pose proof H as H0. unfold Cases.get_df in H.
  apply astype_int_keys in H.
  set (G := Cases.groupby_sum _) in H.
  set (W := filter _ (Cases.diff G)) in H.
  assert (Hasc : ascending df).
  { apply (ascending_keys W df); [now symmetry|].
    apply ascending_filter.
    apply (ascending_keys G (Cases.diff G)); [now rewrite diff_keys|].
    apply groupby_sum_ascending. }
  assert (Hwin : Forall (fun r => from_date - buffer <= fst r <= to_date) df).
  { apply Forall_forall. intros r Hr.
    assert (Hk : In (fst r) (map fst W)) by (rewrite <- H; now apply in_map).
    apply in_map_iff in Hk as (e & <- & He). apply filter_In in He as [_ He].
    apply andb_prop in He as [H1 H2]. lia. }
  repeat split; try assumption.
  - now apply ascending_length.
  - unfold Cases.get_array. now rewrite H0.
Qed.

(** X12. The result depends on the age groups as a set: their order and
    repetitions in the argument are of no account. *)
Theorem cases_age_groups_as_set
        (data : CaseData) (from_date to_date buffer : Z) (state : string)
        (groups groups' : list string) :
  (forall g, In g groups <-> In g groups') ->
  Cases.get_array data from_date to_date state groups buffer
  = Cases.get_array data from_date to_date state groups' buffer.
Proof.
  intros H. unfold Cases.get_array, Cases.get_df.
  rewrite (filter_ext (fun r => existsb (String.eqb (Altersgruppe r)) groups)
                      (fun r => existsb (String.eqb (Altersgruppe r)) groups'));
    [reflexivity|].
  intros r.
  destruct (existsb (String.eqb (Altersgruppe r)) groups) eqn:E1;
    destruct (existsb (String.eqb (Altersgruppe r)) groups') eqn:E2;
    try reflexivity.
  - apply existsb_exists in E1 as (g & Hg & Heq).
    assert (E : existsb (String.eqb (Altersgruppe r)) groups' = true)
      by (apply existsb_exists; exists g; split; [now apply H | exact Heq]).
    congruence.
  - apply existsb_exists in E2 as (g & Hg & Heq).
    assert (E : existsb (String.eqb (Altersgruppe r)) groups = true)
      by (apply existsb_exists; exists g; split; [now apply H | exact Heq]).
    congruence.
Qed.

Lemma fold_min_in (ts : list Z) (t : Z) : In (fold_left Z.min ts t) (t :: ts).
Proof.
  revert t. induction ts as [|u ts IH]; intros t; simpl; [now left|].
  destruct (IH (Z.min t u)) as [H | H].
  - destruct (Z.min_spec t u) as [[_ E] | [_ E]]; rewrite E in *; auto.
  - right. now right.
Qed.

Lemma column_min_in (dates : list Z) (lo : Z) :
  column_min dates = Some lo -> In lo dates.
Proof.
  destruct dates as [|t ts]; [discriminate|]. simpl. intros [= <-].
  apply fold_min_in.
Qed.

Lemma group_add_has_keys (t v : Z) (acc : list (Z * Z)) (k : Z) :
  k = t \/ In k (map fst acc) -> In k (map fst (Cases.group_add t v acc)).
Proof.
  induction acc as [|[t' v'] acc IH]; intros H; cbn [Cases.group_add].
  - destruct H as [-> | []]. now left.
  - destruct (t <? t') eqn:E1; [|destruct (t =? t') eqn:E2].
    + destruct H as [-> | H]; [now left | now right].
    + apply Z.eqb_eq in E2. subst t'. destruct H as [-> | H]; [now left | exact H].
    + destruct H as [-> | [<- | H]].
      * right. apply IH. now left.
      * now left.
      * right. apply IH. now right.
Qed.

Lemma groupby_sum_has_keys (rows : list CaseRow) (k : Z) :
  In k (map Time rows) -> In k (map fst (Cases.groupby_sum rows)).
Proof.
  unfold Cases.groupby_sum.
  assert (G : forall acc,
             In k (map Time rows) \/ In k (map fst acc) ->
             In k (map fst (fold_left
                              (fun acc r => Cases.group_add (Time r) (Anzahl r) acc)
                              rows acc))).
  { induction rows as [|r rows IH]; intros acc H; simpl in *.
    - destruct H as [[] | H]. exact H.
    - apply IH. destruct H as [[E | H] | H].
      + right. apply group_add_has_keys. left. now symmetry.
      + now left.
      + right. apply group_add_has_keys. now right. }
  intros H. apply G. now left.
Qed.

(** The first grouped line is that of the earliest date. *)
Lemma groupby_sum_first (rows : list CaseRow) (t0 : Z) :
  column_min (map Time rows) = Some t0 ->
  exists v rest, Cases.groupby_sum rows = (t0, v) :: rest.
Proof.
  intros Hmin.
  pose proof (column_min_in _ _ Hmin) as Hin.
  pose proof (groupby_sum_has_keys rows t0 Hin) as Hk.
  pose proof (groupby_sum_ascending rows) as Hasc.
  destruct (Cases.groupby_sum rows) as [|[t1 v1] rest] eqn:E; [destruct Hk|].
  assert (H1 : In t1 (map Time rows)).
  { apply groupby_sum_keys. rewrite E. now left. }
  pose proof (column_min_le _ _ _ Hmin H1) as Hle.
  destruct Hk as [Hk | Hk].
  - simpl in Hk. subst t1. now exists v1, rest.
  - destruct Hasc as [Ht _]. apply in_map_iff in Hk as (e & He & Hin').
    rewrite Forall_forall in Ht. specialize (Ht e Hin'). lia.
Qed.

Lemma astype_int_diff_from (w : Z * option Z -> bool) (l : list (Z * Z)) (prev : Z) :
  is_ok (Cases.astype_int (filter w (Cases.diff_from prev l))) = true.
Proof.
  revert prev. induction l as [|[t v] l IH]; intros prev; [reflexivity|].
  cbn [Cases.diff_from filter]. destruct (w (t, Some (v - prev))); [|apply IH].
  cbn [Cases.astype_int]. specialize (IH v).
  now destruct (Cases.astype_int _).
Qed.

(** X13. The case provider raises exactly when the window contains the earliest
    date of the selected lines, the date whose day-over-day difference does
    not exist; for any other window it returns a series. *)
Theorem cases_window_with_first_date
        (data : CaseData) (from_date to_date buffer : Z) (state : string)
        (age_groups : list string) (t0 : Z) :
  column_min (map Time (selection data state age_groups)) = Some t0 ->
  (from_date - buffer <= t0 <= to_date ->
   Cases.get_array data from_date to_date state age_groups buffer = Raise ValueError)
  /\ (t0 < from_date - buffer \/ to_date < t0 ->
      is_ok (Cases.get_array data from_date to_date state age_groups buffer) = true).
Proof.
  intros Hmin. destruct (groupby_sum_first _ _ Hmin) as (v & rest & E).
  unfold Cases.get_array, Cases.get_df. fold (selection data state age_groups).
  rewrite E. cbn [Cases.diff filter fst]. split; intros H.
  - replace ((from_date - buffer <=? t0) && (t0 <=? to_date)) with true
      by (symmetry; apply andb_true_intro; split; lia).
    reflexivity.
  - replace ((from_date - buffer <=? t0) && (t0 <=? to_date)) with false
      by (symmetry; apply andb_false_iff; lia).
    pose proof (astype_int_diff_from
                  (fun r => (from_date - buffer <=? fst r) && (fst r <=? to_date))
                  rest v) as Hok.
    now destruct (Cases.astype_int _).
Qed.




Lemma filter_split_ascending {A : Type} (l : list (Z * A)) (s m t : Z) :
  ascending l -> s <= m + 1 -> m <= t ->
  filter (fun r => (s <=? fst r) && (fst r <=? t)) l
  = filter (fun r => (s <=? fst r) && (fst r <=? m)) l
    ++ filter (fun r => (m + 1 <=? fst r) && (fst r <=? t)) l.
Proof.
  intros Hasc Hs Hm. induction l as [|[d v] l IH]; [reflexivity|].
  destruct Hasc as [Hd Hl]. specialize (IH Hl). cbn [filter fst].
  destruct (s <=? d) eqn:E1; destruct (d <=? t) eqn:E2;
    destruct (d <=? m) eqn:E3; destruct (m + 1 <=? d) eqn:E4;
    cbn [andb]; try lia; try exact IH.
  - rewrite IH. reflexivity.
  - rewrite IH.
    rewrite (filter_none (fun r => (s <=? fst r) && (fst r <=? m)) l);
      [reflexivity|].
    intros e He. rewrite Forall_forall in Hd. specialize (Hd e He).
    apply andb_false_iff. right. lia.
Qed.

Lemma astype_int_app (a b : list (Z * option Z)) :
  Cases.astype_int (a ++ b)
  = (x <- Cases.astype_int a ;; y <- Cases.astype_int b ;; Ok (x ++ y)).
Proof.
  induction a as [|[t [v|]] a IH]; cbn [app Cases.astype_int bind].
  - now destruct (Cases.astype_int b).
  - rewrite IH. destruct (Cases.astype_int a) as [x|e]; [|reflexivity].
    cbn [bind]. now destruct (Cases.astype_int b).
  - reflexivity.
Qed.

(** X15. Windows that follow one another concatenate: the series of a window
    extended to a later end is the series of the window followed by the
    series of the added days.  This is what [predict] relies on when it
    extends the window by the forecast days. *)
Theorem cases_windows_concatenate
        (data : CaseData) (from_date to_date to_date' buffer : Z) (state : string)
        (age_groups : list string) (c1 c2 : list Z) :
  Cases.get_array data from_date to_date state age_groups buffer = Ok c1 ->
  Cases.get_array data (to_date + 1) to_date' state age_groups 0 = Ok c2 ->
  from_date - buffer <= to_date + 1 ->
  to_date <= to_date' ->
  Cases.get_array data from_date to_date' state age_groups buffer = Ok (c1 ++ c2).
Proof.
  unfold Cases.get_array, Cases.get_df. rewrite Z.sub_0_r.
  fold (selection data state age_groups).
  set (L := Cases.diff (Cases.groupby_sum (selection data state age_groups))).
  intros H1 H2 Hs Ht.
  assert (Hasc : ascending L).
  { apply (ascending_keys (Cases.groupby_sum (selection data state age_groups)) L).
    - unfold L. now rewrite diff_keys.
    - apply groupby_sum_ascending. }
  rewrite (filter_split_ascending L (from_date - buffer) to_date to_date' Hasc Hs Ht).
  rewrite astype_int_app.
  destruct (Cases.astype_int (filter _ L)) as [x|e]; [|discriminate].
  cbn [bind] in *. inversion H1; subst.
  destruct (Cases.astype_int (filter _ L)) as [y|e]; [|discriminate].
  cbn [bind] in *. inversion H2; subst. now rewrite map_app.
Qed.

(** ** The occupancy provider *)

Lemma unique_in (l : list string) (v : string) : In v (unique l) <-> In v l.
Proof.
  induction l as [|u l IH]; [reflexivity|]. cbn [unique]. split.
  - intros [<- | H]; [now left|]. apply filter_In in H as [H _].
    right. now apply IH.
  - intros [<- | H]; [now left|].
    destruct (String.eqb u v) eqn:E.
    + apply String.eqb_eq in E. now left.
    + right. apply filter_In. split; [now apply IH | now rewrite E].
Qed.

Lemma unique_nodup (l : list string) : NoDup (unique l).
Proof.
  induction l as [|u l IH]; [constructor|]. cbn [unique]. constructor.
  - intros H. apply filter_In in H as [_ H]. now rewrite String.eqb_refl in H.
  - now apply NoDup_filter.
Qed.

(** X16. [states()] lists every region of the file once, and a listed region has
    data: over the whole range of dates of the file the provider returns a
    series that is not empty for it. *)
Theorem occupancy_listed_state_has_data
        (data : OccupancyData) (state type : string) (lo hi : Z) :
  In state (OccupancyQueries.states data) ->
  type = "ICU" \/ type = "normal" ->
  Occupancy.min_date data = Some lo ->
  Occupancy.max_date data = Some hi ->
  NoDup (OccupancyQueries.states data)
  /\ exists v rest, Occupancy.get_array data lo hi state type = Ok (v :: rest).
Proof.
  intros Hin Htype Hlo Hhi. split; [apply unique_nodup|].
  unfold OccupancyQueries.states in Hin. apply (proj1 (unique_in _ _)) in Hin.
  apply in_map_iff in Hin as (row & Hrow & Hdata).
  assert (Hd : lo <= Meldedatum row <= hi).
  { split.
    - apply (column_min_le _ _ _ Hlo). now apply in_map.
    - apply (column_max_ge _ _ _ Hhi). now apply in_map. }
  assert (Hsel : forall col : OccupancyRow -> Z,
             In (Meldedatum row, col row)
                (filter (fun r => (lo <=? fst r) && (fst r <=? hi))
                   (map (fun r => (Meldedatum r, col r))
                      (filter (fun r => String.eqb (oBundesland r) state) data)))).
  { intros col. apply filter_In. split.
    - apply (in_map (fun r => (Meldedatum r, col r))). apply filter_In.
      split; [exact Hdata | now apply String.eqb_eq].
    - simpl. apply andb_true_intro. split; lia. }
  unfold Occupancy.get_array, Occupancy.get_df.
  destruct Htype; subst type; cbn [String.eqb Ascii.eqb Bool.eqb bind].
  - specialize (Hsel IntensivBettenBelCovid19).
    destruct (filter _ _) as [|e rest]; [destruct Hsel|]. now eexists _, _.
  - specialize (Hsel NormalBettenBelCovid19).
    destruct (filter _ _) as [|e rest]; [destruct Hsel|]. now eexists _, _.
Qed.

(** ** The error functions *)

Lemma abs_error_swap (a p : Z) : abs_error (a, p) = abs_error (p, a).
Proof. unfold abs_error. cbn [fst snd]. do 2 f_equal. lia. Qed.

Lemma abs_error_combine_swap (a p : list Z) :
  map abs_error (combine a p) = map abs_error (combine p a).
Proof.
  revert p. induction a as [|x a IH]; intros p.
  - now destruct p.
  - destruct p as [|y p]; [reflexivity|]. cbn [combine map].
    now rewrite abs_error_swap, IH.
Qed.

Lemma broadcast_swap (a p : list Z) :
  match broadcast a p, broadcast p a with
  | Ok c, Ok c' => map abs_error c = map abs_error c'
  | Raise e, Raise e' => e = e'
  | _, _ => False
  end.
Proof.
  unfold broadcast. rewrite (Nat.eqb_sym (length p) (length a)).
  destruct (Nat.eqb (length a) (length p)) eqn:E.
  - apply abs_error_combine_swap.
  - destruct a as [|x [|x' a]]; destruct p as [|y [|y' p]];
      try reflexivity; try discriminate.
    + rewrite !map_map. apply map_ext. intros z. apply abs_error_swap.
    + rewrite !map_map. apply map_ext. intros z. apply abs_error_swap.
Qed.

(** X17. The mean absolute error does not depend on which series is the
    reference, also where the two series are broadcast or rejected. *)
Theorem mae_symmetric (actual pred : list Z) : mae actual pred = mae pred actual.
Proof.
  unfold mae. fold abs_error.
  pose proof (broadcast_swap actual pred) as H.
  destruct (broadcast actual pred) as [c|e]; destruct (broadcast pred actual) as [c'|e'];
    cbn [bind]; try contradiction.
  - now rewrite H.
  - now subst.
Qed.

Lemma broadcast_mismatch (actual pred : list Z) :
  length actual <> length pred -> length actual <> 1%nat -> length pred <> 1%nat ->
  broadcast actual pred = Raise ValueError.
Proof.
  intros H Ha Hp. unfold broadcast.
  destruct (Nat.eqb (length actual) (length pred)) eqn:E;
    [apply Nat.eqb_eq in E; contradiction|].
  destruct actual as [|x [|x' a]]; destruct pred as [|y [|y' p]];
    simpl in *; try reflexivity; congruence.
Qed.

(** X18. Two series of different lengths, neither of length one, are rejected by
    every error function with ValueError. *)
Theorem error_functions_reject_mismatch (actual pred : list Z) :
  length actual <> length pred ->
  length actual <> 1%nat ->
  length pred <> 1%nat ->
  mape actual pred = Raise ValueError
  /\ mae actual pred = Raise ValueError
  /\ mase actual pred = Raise ValueError.
Proof.
  intros H Ha Hp. unfold mape, mae, mase.
  now rewrite (broadcast_mismatch _ _ H Ha Hp).
Qed.

Lemma fold_qplus_zero (l : list Q) (c : Q) :
  Forall (fun q => (q == 0)%Q) l -> (fold_left Qplus l c == c)%Q.
Proof.
  intros H. revert c. induction H as [|q l Hq _ IH]; intros c; simpl.
  - reflexivity.
  - rewrite IH, Hq. ring.
Qed.

Lemma fold_fadd_abs (cells : list (Z * Z)) (c : Q) :
  fold_left fadd (map abs_error cells) (Fin c)
  = Fin (fold_left Qplus
           (map (fun cell => inject_Z (Z.abs (fst cell - snd cell))) cells) c).
Proof.
  revert c. induction cells as [|cell cells IH]; intros c; [reflexivity|].
  cbn [map fold_left]. unfold abs_error at 1. cbn [fadd]. apply IH.
Qed.

Lemma combine_self_in (l : list Z) (c : Z * Z) :
  In c (combine l l) -> fst c = snd c /\ In (fst c) l.
Proof.
  induction l as [|x l IH]; [intros []|]. intros [<- | H].
  - split; [reflexivity | now left].
  - destruct (IH H). split; [assumption | now right].
Qed.

(** X19. A perfect prediction has the error zero: the mean absolute error of a
    series against itself is zero, and so is its percentage error when no
    entry of the series is zero. *)
Theorem perfect_prediction_has_no_error (actual : list Z) :
  actual <> [] ->
  (exists q, mae actual actual = Ok (Fin q) /\ (q == 0)%Q)
  /\ (Forall (fun a => a <> 0) actual ->
      exists q, mape actual actual = Ok (Fin q) /\ (q == 0)%Q).
Proof.
  intros Hne.
  assert (Hlen : exists k, length (combine actual actual) = S k).
  { destruct actual as [|a l]; [congruence|]. simpl. now eexists. }
  destruct Hlen as [k Hk]. split.
  - unfold mae. rewrite broadcast_same_length by reflexivity. cbn [bind].
    fold abs_error. unfold fmean. rewrite fold_fadd_abs, length_map, Hk.
    cbn [fdiv_count]. eexists. split; [reflexivity|].
    rewrite fold_qplus_zero.
    + unfold Qdiv. ring.
    + apply Forall_map, Forall_forall. intros c Hc.
      apply combine_self_in in Hc as [Hc _]. rewrite Hc, Z.sub_diag. reflexivity.
  - intros Hnz. unfold mape. rewrite broadcast_same_length by reflexivity.
    cbn [bind]. unfold fmean. rewrite fold_fadd_fin.
    + rewrite length_map, Hk. cbn [fdiv_count fscale]. eexists. split; [reflexivity|].
      rewrite fold_qplus_zero.
      * unfold Qdiv. ring.
      * apply Forall_map, Forall_forall. intros c Hc.
        apply combine_self_in in Hc as [Hc _]. rewrite Hc, Z.sub_diag.
        change (inject_Z (Z.abs 0)) with 0%Q. unfold Qdiv. ring.
    + apply Forall_forall. intros c Hc. apply combine_self_in in Hc as [Hc Hin].
      rewrite Forall_forall in Hnz. now apply Hnz.
Qed.

Lemma np_diff_from_constant (c : Z) (l : list Z) :
  Forall (fun v => v = c) l -> sum (map Z.abs (np_diff_from c l)) = 0.
Proof.
  induction 1 as [|v l -> _ IH]; [reflexivity|].
  cbn [np_diff_from map]. rewrite sum_cons, IH, Z.sub_diag. reflexivity.
Qed.

Lemma fdiv_nonneg_zero_denominator (v : float) (s : Z) (k : Z) :
  s = 0 -> is_finite (fdiv_nonneg v (fdiv_int s k)) = false.
Proof.
  intros ->. unfold fdiv_int. destruct (k =? 0).
  - cbn [Z.eqb]. now destruct v.
  - assert (E : Qeq_bool (inject_Z 0 / inject_Z k) 0 = true).
    { apply Qeq_bool_iff. unfold Qdiv. ring. }
    destruct v as [a| |]; cbn [fdiv_nonneg]; try reflexivity.
    rewrite E. now destruct (Qeq_bool a 0).
Qed.

(** X20. The scaled error is undefined over a flat reference: when all the
    entries of the reference series are equal (a single entry for one), the
    scale is zero and [mase] returns an infinity or a NaN, raising
    nothing. *)
Theorem mase_flat_reference (actual pred : list Z) (c : Z) :
  length actual = length pred ->
  Forall (fun v => v = c) actual ->
  exists v, mase actual pred = Ok v /\ is_finite v = false.
Proof.
  intros Hlen Hflat. unfold mase. rewrite (broadcast_same_length _ _ Hlen).
  cbn [bind]. eexists. split; [reflexivity|].
  apply fdiv_nonneg_zero_denominator.
  destruct actual as [|a l]; [reflexivity|].
  inversion Hflat; subst. cbn [np_diff]. now apply np_diff_from_constant.
Qed.

(** ** The benchmark loop *)

Lemma dict_get_set {V : Type} (k : Z) (v : V) (d : list (Z * V)) :
  dict_get k (dict_set k v d) = Some v.
Proof.
  induction d as [|[k' v'] d IH]; simpl.
  - now rewrite Z.eqb_refl.
  - destruct (k =? k') eqn:E; simpl; rewrite ?Z.eqb_refl, ?E; auto.
Qed.

Lemma dict_set_keeps {V : Type} (k k' : Z) (v : V) (d : list (Z * V)) :
  dict_get k d <> None -> dict_get k (dict_set k' v d) <> None.
Proof.
  induction d as [|[k0 v0] d IH]; simpl; [congruence|].
  destruct (k' =? k0) eqn:E1; simpl.
  - apply Z.eqb_eq in E1. subst k0. now destruct (k =? k').
  - destruct (k =? k0); [congruence | exact IH].
Qed.

Section BenchmarkProperties.

Variable C : Type.
Variable forecast : Z -> Z -> result (list Z * C).
Variable forecast_days : Z.
Variable state bed_type : string.
Variable occupancy_data : OccupancyData.

(** X21. A forecast whose length differs from that of the reference (neither
    being of length one) is recorded as failed with ValueError, and the
    entry the loop had begun for its date stays in [successful], holding
    the reference and the prediction and no score. *)
Theorem benchmark_mismatch_in_both_dictionaries
        (date : Z) (prediction reference : list Z) (calibration : C)
        (successful : list (Z * Entry C)) (failed : list (Z * exn)) :
  forecast date forecast_days = Ok (prediction, calibration) ->
  Occupancy.get_array occupancy_data (date + 1) (date + 1 + forecast_days - 1)
    state bed_type = Ok reference ->
  length reference <> length prediction ->
  length reference <> 1%nat ->
  length prediction <> 1%nat ->
  let st := benchmark_date C forecast forecast_days state bed_type occupancy_data
              (successful, failed) date in
  dict_get date (snd st) = Some ValueError
  /\ dict_get date (fst st)
     = Some (mkEntry (Some reference) (Some prediction) None None None None None).
Proof.
  intros Hf Hr Hlen H1 H2. unfold benchmark_date, benchmark_try. cbn [fst snd].
  rewrite Hf, Hr. unfold subtract.
  rewrite (broadcast_mismatch _ _ Hlen H1 H2). cbn [bind fst snd].
  split; apply dict_get_set.
Qed.

(** X22. A forecast as long as its reference gets a complete entry, with the
    difference and the three scores, and nothing is added to [failed]. *)
Theorem benchmark_complete_entry
        (date : Z) (prediction reference : list Z) (calibration : C)
        (successful : list (Z * Entry C)) (failed : list (Z * exn)) :
  forecast date forecast_days = Ok (prediction, calibration) ->
  Occupancy.get_array occupancy_data (date + 1) (date + 1 + forecast_days - 1)
    state bed_type = Ok reference ->
  length reference = length prediction ->
  let st := benchmark_date C forecast forecast_days state bed_type occupancy_data
              (successful, failed) date in
  snd st = failed
  /\ exists v1 v2 v3,
      mase reference prediction = Ok v1
      /\ mape reference prediction = Ok v2
      /\ mae reference prediction = Ok v3
      /\ dict_get date (fst st)
         = Some (mkEntry (Some reference) (Some prediction)
                   (Some (map (fun c => fst c - snd c) (combine reference prediction)))
                   (Some v1) (Some v2) (Some v3) (Some calibration)).
Proof.
  intros Hf Hr Hlen. unfold benchmark_date, benchmark_try. cbn [fst snd].
  rewrite Hf, Hr. unfold subtract, mase, mape, mae.
  rewrite (broadcast_same_length _ _ Hlen). cbn [bind fst snd].
  split; [reflexivity|]. eexists _, _, _. repeat split. apply dict_get_set.
Qed.

Lemma benchmark_try_records (date : Z) (successful : list (Z * Entry C)) :
  (forall k, dict_get k successful <> None ->
             dict_get k (snd (benchmark_try C forecast forecast_days state bed_type
                                occupancy_data date successful)) <> None)
  /\ (fst (benchmark_try C forecast forecast_days state bed_type occupancy_data
             date successful) = Ok tt ->
      dict_get date (snd (benchmark_try C forecast forecast_days state bed_type
                            occupancy_data date successful)) <> None).
Proof.
  unfold benchmark_try.
  destruct (forecast date forecast_days) as [[prediction calibration]|e];
    [|split; [auto | discriminate]].
  destruct (Occupancy.get_array _ _ _ _ _) as [reference|e];
    [|split; [auto | discriminate]].
  destruct (subtract reference prediction) as [d|e];
    [|split; [intros k Hk; cbn [snd]; repeat apply dict_set_keeps; exact Hk
             | discriminate]].
  destruct (mase reference prediction) as [v1|e];
    [|split; [intros k Hk; cbn [snd]; repeat apply dict_set_keeps; exact Hk
             | discriminate]].
  destruct (mape reference prediction) as [v2|e];
    [|split; [intros k Hk; cbn [snd]; repeat apply dict_set_keeps; exact Hk
             | discriminate]].
  destruct (mae reference prediction) as [v3|e];
    [|split; [intros k Hk; cbn [snd]; repeat apply dict_set_keeps; exact Hk
             | discriminate]].
  split.
  - intros k Hk. cbn [snd]. repeat apply dict_set_keeps. exact Hk.
  - intros _. cbn [snd]. rewrite dict_get_set. discriminate.
Qed.

Lemma benchmark_date_keeps (st : list (Z * Entry C) * list (Z * exn)) (date k : Z) :
  dict_get k (fst st) <> None \/ dict_get k (snd st) <> None ->
  let st' := benchmark_date C forecast forecast_days state bed_type occupancy_data
               st date in
  dict_get k (fst st') <> None \/ dict_get k (snd st') <> None.
Proof.
  intros H. unfold benchmark_date.
  destruct (benchmark_try_records date (fst st)) as [Hkeep _].
  destruct (benchmark_try _ _ _ _ _ _ _ _) as [[[]|e] s] eqn:E; cbn [fst snd] in *.
  - destruct H as [H | H]; [left; now apply Hkeep | now right].
  - destruct H as [H | H]; [left; now apply Hkeep | right; now apply dict_set_keeps].
Qed.

Lemma benchmark_date_records (st : list (Z * Entry C) * list (Z * exn)) (date : Z) :
  let st' := benchmark_date C forecast forecast_days state bed_type occupancy_data
               st date in
  dict_get date (fst st') <> None \/ dict_get date (snd st') <> None.
Proof.
  unfold benchmark_date.
  destruct (benchmark_try_records date (fst st)) as [_ Hok].
  destruct (benchmark_try _ _ _ _ _ _ _ _) as [[[]|e] s] eqn:E; cbn [fst snd] in *.
  - left. now apply Hok.
  - right. rewrite dict_get_set. discriminate.
Qed.

(** X23. No date is lost: whatever a forecast, the provider or a score raises,
    every date of the list is a key of [successful] or of [failed] when the
    loop has ended. *)
Theorem benchmark_records_every_date (dates : list Z) (date : Z) :
  In date dates ->
  let st := benchmark C forecast forecast_days state bed_type occupancy_data dates in
  dict_get date (fst st) <> None \/ dict_get date (snd st) <> None.
Proof.
  unfold benchmark. generalize (@nil (Z * Entry C), @nil (Z * exn)).
  induction dates as [|d dates IH]; intros st Hin; [destruct Hin|].
  cbn [fold_left]. destruct Hin as [-> | Hin]; [|now apply IH].
  clear IH. pose proof (benchmark_date_records st date) as H0. cbv zeta in H0.
  revert H0.
  generalize (benchmark_date C forecast forecast_days state bed_type occupancy_data
                st date).
  induction dates as [|d dates IH]; intros st' H0; [exact H0|].
  cbn [fold_left]. apply IH. now apply benchmark_date_keeps.
Qed.

End BenchmarkProperties.

(** * Runs of the further properties *)


Lemma simulate_buffer_trimming_witness :
  (0 <= _buffer Sample.from_the_end ->
   Z.of_nat (length [0; 0])
   = Z.max 0 (Z.of_nat (length (cases Sample.from_the_end)) - _buffer Sample.from_the_end))
  /\ (_buffer Sample.from_the_end < 0 ->
      Z.of_nat (length [0; 0])
      = Z.min (Z.of_nat (length (cases Sample.from_the_end)))
              (- _buffer Sample.from_the_end)).
Proof.
  apply (@simulate_buffer_trimming PointMass.stream Sample.from_the_end 0 [0; 0]).
  reflexivity.
Defined.


Lemma monte_carlo_between_replicas_witness : 0 <= nth 0 [0] 0 <= 1.
Proof.
  apply (@monte_carlo_between_replicas PointMass.stream 0 one_case 2 "parallel"
           [[1]; [0]] [0] 0%nat 0 1).
  - reflexivity.
  - reflexivity.
  - simpl. lia.
  - intros row [<- | [<- | []]]; simpl; lia.
Defined.

Lemma update_establishes_window_witness :
  exists m',
    update None None None (Some 3) (Some 5) None PointMass.window_model = (Ok tt, m')
    /\ consistent m'
    /\ params m' = params PointMass.window_model
    /\ _from_date m' = 3 /\ _to_date m' = 5
    /\ _state m' = "Wien" /\ _buffer m' = 0
    /\ occupancy m' = [10; 10; 10] /\ cases m' = [0; 3; 0].
Proof.
  eexists. split; [reflexivity|].
  pose proof (update_establishes_window None None None (Some 3) (Some 5) None
                PointMass.window_model _ eq_refl)
    as (Hc & Hp & _ & _ & Hs & _ & _ & Hf & Ht & Hb).
  repeat split; try assumption; try reflexivity; apply Hc.
Defined.

Lemma init_consistent_witness :
  consistent PointMass.icu_model /\ params PointMass.icu_model = [1; 0; 3; 1]%Q.
Proof.
  apply (init_consistent 1 0 3 1 "Wien" "ICU" ["<5"] 2 4 0 PointMass.case_file
           PointMass.occupancy_file 0 0 PointMass.icu_model).
  reflexivity.
Defined.

Lemma update_failure_keeps_assignments_witness :
  exists m',
    update None (Some "all") None None (Some 5) None PointMass.window_model
    = (Raise ValueError, m')
    /\ _bed_type m' = "all" /\ _to_date m' = 5
    /\ cases m' = cases PointMass.window_model
    /\ occupancy m' = [10; 10; 10].
Proof.
  eexists. split; [reflexivity|].
  pose proof (update_failure_keeps_assignments None (Some "all") None None (Some 5)
                None PointMass.window_model _ ValueError eq_refl)
    as (_ & Hb & _ & _ & Ht & _ & Hc & _).
  repeat split; try assumption; reflexivity.
Defined.

Lemma predict_zero_days_whole_window_witness :
  @predict PointMass.stream 0 0 2 "sequential" PointMass.window_model
  = (match @monte_carlo PointMass.stream 0 PointMass.window_model 2 "sequential" with
     | Ok (Vector l) => Ok l
     | Ok (Scalar _) => Raise IndexError
     | Raise e => Raise e
     end, PointMass.window_model).
Proof.
  apply (@predict_zero_days_whole_window PointMass.stream 0 2 "sequential"
           PointMass.window_model).
  split; reflexivity.
Defined.

Lemma predict_failure_keeps_window_witness :
  exists m1,
    @predict PointMass.stream 0 2 1 "threads" PointMass.window_model
    = (Raise ValueError, m1)
    /\ _to_date m1 = _to_date PointMass.window_model + 2.
Proof.
  eexists.
  apply (@predict_failure_keeps_extended_window PointMass.stream 0 2 1 "threads"
           PointMass.window_model _ ValueError); reflexivity.
Defined.

Lemma predict_without_replicas_witness :
  @predict PointMass.stream 0 2 0 "parallel" PointMass.window_model
  = (Raise IndexError, PointMass.window_model).
Proof.
  eapply (@predict_without_replicas PointMass.stream 0 2 0 "parallel"
            PointMass.window_model).
  - split; reflexivity.
  - lia.
  - left. reflexivity.
  - reflexivity.
Defined.

Lemma cases_one_entry_per_day_witness :
  ascending [(2, 6); (3, 5); (4, 3)]
  /\ Forall (fun r => 3 - 1 <= fst r <= 9) [(2, 6); (3, 5); (4, 3)]
  /\ Z.of_nat (length [(2, 6); (3, 5); (4, 3)]) <= Z.max 0 (9 - (3 - 1) + 1)
  /\ Cases.get_array Sample.case_rows 3 9 "Wien" ["<5"; "5-14"] 1
     = Ok (map snd [(2, 6); (3, 5); (4, 3)]).
Proof.
  apply (cases_one_entry_per_day Sample.case_rows 3 9 1 "Wien" ["<5"; "5-14"]).
  reflexivity.
Defined.

Lemma cases_age_groups_as_set_witness :
  Cases.get_array Sample.case_rows 2 4 "Wien" ["<5"; "5-14"] 0
  = Cases.get_array Sample.case_rows 2 4 "Wien" ["5-14"; "<5"; "<5"] 0.
Proof.
  apply (cases_age_groups_as_set Sample.case_rows 2 4 0 "Wien").
  intros g. simpl. tauto.
Defined.

Lemma cases_window_with_first_date_witness :
  Cases.get_array Sample.case_rows 1 4 "Wien" ["<5"; "5-14"] 0 = Raise ValueError
  /\ is_ok (Cases.get_array Sample.case_rows 2 4 "Wien" ["<5"; "5-14"] 0) = true.
Proof.
  split.
  - apply (proj1 (cases_window_with_first_date Sample.case_rows 1 4 0 "Wien"
                    ["<5"; "5-14"] 1 eq_refl)). lia.
  - apply (proj2 (cases_window_with_first_date Sample.case_rows 2 4 0 "Wien"
                    ["<5"; "5-14"] 1 eq_refl)). left. lia.
Defined.


Lemma cases_windows_concatenate_witness :
  Cases.get_array Sample.case_rows 2 4 "Wien" ["<5"; "5-14"] 0 = Ok ([6] ++ [5; 3]).
Proof.
  apply (cases_windows_concatenate Sample.case_rows 2 2 4 0 "Wien" ["<5"; "5-14"]).
  - reflexivity.
  - reflexivity.
  - lia.
  - lia.
Defined.

Lemma occupancy_listed_state_witness :
  NoDup (OccupancyQueries.states PointMass.occupancy_file)
  /\ exists v rest,
      Occupancy.get_array PointMass.occupancy_file 1 6 "Wien" "ICU" = Ok (v :: rest).
Proof.
  apply (occupancy_listed_state_has_data PointMass.occupancy_file "Wien" "ICU" 1 6).
  - left. reflexivity.
  - left. reflexivity.
  - reflexivity.
  - reflexivity.
Defined.

Lemma error_functions_reject_mismatch_witness :
  mape [10; 10] [1; 2; 3] = Raise ValueError
  /\ mae [10; 10] [1; 2; 3] = Raise ValueError
  /\ mase [10; 10] [1; 2; 3] = Raise ValueError.
Proof.
  apply (error_functions_reject_mismatch [10; 10] [1; 2; 3]); discriminate.
Defined.

Lemma perfect_prediction_witness :
  (exists q, mae [3; 5] [3; 5] = Ok (Fin q) /\ (q == 0)%Q)
  /\ (Forall (fun a => a <> 0) [3; 5] ->
      exists q, mape [3; 5] [3; 5] = Ok (Fin q) /\ (q == 0)%Q).
Proof.
  apply (perfect_prediction_has_no_error [3; 5]). discriminate.
Defined.

Lemma mase_flat_reference_witness :
  exists v, mase [10; 10] [7; 7] = Ok v /\ is_finite v = false.
Proof.
  apply (mase_flat_reference [10; 10] [7; 7] 10).
  - reflexivity.
  - repeat constructor.
Defined.

Lemma benchmark_mismatch_witness :
  let st := benchmark_date unit Sample.forecast 2 "Wien" "normal"
              PointMass.occupancy_file ([], []) 2 in
  dict_get 2 (snd st) = Some ValueError
  /\ dict_get 2 (fst st)
     = Some (mkEntry (Some [10; 10]) (Some [1; 2; 3]) None None None None None).
Proof.
  apply (benchmark_mismatch_in_both_dictionaries unit Sample.forecast 2 "Wien" "normal"
           PointMass.occupancy_file 2 [1; 2; 3] [10; 10] tt [] []);
    try reflexivity; discriminate.
Defined.

Lemma benchmark_complete_entry_witness :
  let st := benchmark_date unit Sample.forecast 2 "Wien" "normal"
              PointMass.occupancy_file ([], []) 3 in
  snd st = []
  /\ exists v1 v2 v3,
      mase [10; 10] [7; 7] = Ok v1
      /\ mape [10; 10] [7; 7] = Ok v2
      /\ mae [10; 10] [7; 7] = Ok v3
      /\ dict_get 3 (fst st)
         = Some (mkEntry (Some [10; 10]) (Some [7; 7])
                   (Some (map (fun c => fst c - snd c) (combine [10; 10] [7; 7])))
                   (Some v1) (Some v2) (Some v3) (Some tt)).
Proof.
  apply (benchmark_complete_entry unit Sample.forecast 2 "Wien" "normal"
           PointMass.occupancy_file 3 [7; 7] [10; 10] tt [] []);
    reflexivity.
Defined.

Lemma benchmark_records_every_date_witness :
  let st := benchmark unit Sample.forecast 2 "Wien" "normal"
              PointMass.occupancy_file [2; 3; 9] in
  dict_get 9 (fst st) <> None \/ dict_get 9 (snd st) <> None.
Proof.
  apply (benchmark_records_every_date unit Sample.forecast 2 "Wien" "normal"
           PointMass.occupancy_file [2; 3; 9] 9).
  simpl. auto.
Defined.

Example benchmark_run :
  benchmark unit Sample.forecast 2 "Wien" "normal" PointMass.occupancy_file [2; 3; 9]
  = ([(2, mkEntry (Some [10; 10]) (Some [1; 2; 3]) None None None None None);
      (3, mkEntry (Some [10; 10]) (Some [7; 7]) (Some [3; 3]) (Some Inf)
            (Some (Fin (6000 # 200))) (Some (Fin (6 # 2))) (Some tt))],
     [(2, ValueError); (9, ZeroDivisionError)]).
Proof. reflexivity. Qed.
